(** * skimage.measure.fit: estimators and RANSAC, a shallow embedding

    The numeric code of [fit.py] runs on IEEE doubles through NumPy, LAPACK
    and libm.  A double is read here as the real number it denotes; the
    values [nan] and [inf] are kept where the control flow of the code
    depends on them.  A floating-point operation does not return what the
    real operation returns, so where a statement depends on the difference
    the operation is a parameter: [np_mean] is what [np.mean] returns, [rnd]
    rounds the result of each operation in the tail of the ellipse fit,
    [np_arctan] is libm's [arctan], [log_ratio] is the quotient of the two
    logarithms in [_dynamic_max_trials_rounded], and [np_pi] is the double
    [np.pi].  Each theorem states what it asks of them ([mean_of_zeros],
    [mean_exact_on], [rounding], [positive_on_clamped]).  Calls into
    NumPy/SciPy linear algebra ([svd], [lstsq], [inv], [eig]) are parameters
    of the estimators as well, and so are [arctan2] and [leastsq] in the
    residuals of the ellipse.  The RANSAC engine compares, counts and
    indexes; its trial bound is [_dynamic_max_trials], the bound with exact
    logarithms.  Overflow to [inf] is not modelled, and the sign of a zero
    only where a division by it decides between nan and a number. *)

From Stdlib Require Import String.
From Stdlib Require DecimalString.
From Stdlib Require Import Reals Lra Lia ZArith Bool Arith List Relations.
Import ListNotations.

Local Open Scope R_scope.

(* ================================================================== *)
(** * Part I: definitions *)
(* ================================================================== *)

(** ** Python values shared by the whole module *)

(** The exceptions the modelled code can raise. *)
Inductive exn : Type :=
| ValueError (msg : string)
| ZeroDivisionError
| IndexError
| FailedEstimationAccessError.

(** [str(n)] for an int that is not negative. *)
Definition str (n : nat) : string :=
  DecimalString.NilEmpty.string_of_uint (Nat.to_uint n).

(** Outcome of a call that either returns or raises. *)
Inductive result (A : Type) : Type :=
| Ok (a : A)
| Raise (e : exn).
Arguments Ok {A} a.
Arguments Raise {A} e.

(** A number that may be [np.inf]. *)
Inductive ext (A : Type) : Type :=
| Fin (a : A)
| Inf.
Arguments Fin {A} a.
Arguments Inf {A}.

(** Order on trial counts, [np.inf] on top. *)
Definition ext_le (a b : ext Z) : Prop :=
  match a, b with
  | _, Inf => True
  | Inf, Fin _ => False
  | Fin x, Fin y => (x <= y)%Z
  end.

(** [from_estimate] returns a model (truthy) or a falsy failure object. *)
Inductive estimation (Model Fail : Type) : Type :=
| Estimated (m : Model)
| Failed (f : Fail).
Arguments Estimated {Model Fail} m.
Arguments Failed {Model Fail} f.

(** Boolean comparisons on numbers, as Python evaluates them. *)
Definition Rltb (x y : R) : bool := if Rlt_dec x y then true else false.
Definition Rleb (x y : R) : bool := if Rle_dec x y then true else false.

(** [_EPSILON = np.spacing(1)], the gap between 1.0 and the next double. *)
Definition _EPSILON : R := / 2 ^ 52.

(** [np.clip(x, a_min, a_max)] is [minimum(maximum(x, a_min), a_max)]. *)
Definition clip (x a_min a_max : R) : R := Rmin (Rmax x a_min) a_max.

(** ** [_dynamic_max_trials] (fit.py, lines 1092-1124)

    The counts are Python ints, never negative at the call site; the
    true division [n_inliers / n_samples] raises on a zero divisor.  The
    function returns the int [0], [np.inf], or the integral float that
    [np.ceil] produces. *)
Definition _dynamic_max_trials
    (n_inliers n_samples min_samples : nat) (probability : R) : result (ext Z) :=
  if Req_dec_T probability 0 then Ok (Fin 0%Z)
  else if Nat.eqb n_inliers 0 then Ok Inf
  else if Nat.eqb n_samples 0 then Raise ZeroDivisionError
  else
    let inlier_ratio := INR n_inliers / INR n_samples in
    let nom := 1 - probability in
    let denom := 1 - inlier_ratio ^ min_samples in
    let nom := clip nom _EPSILON (1 - _EPSILON) in
    let denom := clip denom _EPSILON (1 - _EPSILON) in
    Ok (Fin (Zceil (ln nom / ln denom))).

(** The same function on doubles.  [log_ratio nom denom] stands for the
    double [np.log(nom) / np.log(denom)]: two calls of libm and a division,
    each of them rounded.  [_dynamic_max_trials] above is this function at
    the exact quotient [exact_log_ratio]. *)
Definition _dynamic_max_trials_rounded (log_ratio : R -> R -> R)
    (n_inliers n_samples min_samples : nat) (probability : R) : result (ext Z) :=
  if Req_dec_T probability 0 then Ok (Fin 0%Z)
  else if Nat.eqb n_inliers 0 then Ok Inf
  else if Nat.eqb n_samples 0 then Raise ZeroDivisionError
  else
    let inlier_ratio := INR n_inliers / INR n_samples in
    let nom := 1 - probability in
    let denom := 1 - inlier_ratio ^ min_samples in
    let nom := clip nom _EPSILON (1 - _EPSILON) in
    let denom := clip denom _EPSILON (1 - _EPSILON) in
    Ok (Fin (Zceil (log_ratio nom denom))).

Definition exact_log_ratio (x y : R) : R := ln x / ln y.

(** What holds of the quotient on doubles: both logarithms of clamped
    probabilities are negative and finite, and their quotient is a positive
    double. *)
Definition positive_on_clamped (log_ratio : R -> R -> R) : Prop :=
  forall x y,
    _EPSILON <= x <= 1 - _EPSILON -> _EPSILON <= y <= 1 - _EPSILON ->
    0 < log_ratio x y.

(** The quotient as doubles give it at the one pair of arguments a call
    with k = 1, N = 2, m = 2, p = 37/64 meets: [np.log(27/64) / np.log(3/4)]
    is 0x1.8000000000001p+1, the double after 3. *)
Definition log_ratio_here (x y : R) : R :=
  if Req_dec_T x (27 / 64) then
    if Req_dec_T y (3 / 4) then 3 + / 2 ^ 51 else ln x / ln y
  else ln x / ln y.

(** The bound as the specification words it: the ceiling of
    [ln(1-p) / ln(1-(k/N)^m)], both probabilities clamped into
    [[eps, 1 - eps]] first. *)
Definition clamp_probability (x : R) : R :=
  if Rlt_dec x _EPSILON then _EPSILON
  else if Rlt_dec (1 - _EPSILON) x then 1 - _EPSILON
  else x.

Definition spec_trial_bound (k N m : nat) (p : R) : Z :=
  Zceil (ln (clamp_probability (1 - p))
         / ln (clamp_probability (1 - (INR k / INR N) ^ m))).

(** ** NumPy arrays of floats *)

(** A two-dimensional array of shape [(N, ncols)], row by row. *)
Record ndarray : Type := {
  ncols : nat;
  rows : list (list R);
}.

Definition Rsum (l : list R) : R := fold_right Rplus 0 l.

(** The arithmetic mean of a list that is not empty. *)
Definition mean (l : list R) : R := Rsum l / INR (length l).

Definition column (j : nat) (d : list (list R)) : list R :=
  map (fun row => nth j row 0) d.

(** [data.mean(axis=0)], for [np_mean] the mean of a one-dimensional
    array as NumPy computes it.  On doubles the sum is rounded as it is
    accumulated, in an order that depends on the layout of the array, so that
    the mean of N copies of a number need not be that number: [np_mean] is a
    parameter of the estimators, and [mean] is what it computes when no sum
    is rounded. *)
Definition mean_axis0 (np_mean : list R -> R) (data : ndarray) : list R :=
  map (fun j => np_mean (column j (rows data))) (seq 0 (ncols data)).

(** Elementwise [u - v], [u + v] and [u * k] on vectors. *)
Definition vsub (u v : list R) : list R := map (fun p => fst p - snd p) (combine u v).
Definition vadd (u v : list R) : list R := map (fun p => fst p + snd p) (combine u v).
Definition vscale (u : list R) (k : R) : list R := map (fun x => x * k) u.

(** [data - origin], the row vector broadcast over the rows. *)
Definition sub_rows (d : list (list R)) (o : list R) : list (list R) :=
  map (fun row => vsub row o) d.

(** [data.std()], over all the entries of the array:
    [sqrt(mean(abs(x - x.mean())**2))]. *)
Definition std (np_mean : list R -> R) (d : list (list R)) : R :=
  let x := concat d in
  let mu := np_mean x in
  sqrt (np_mean (map (fun v => Rabs (v - mu) ^ 2) x)).

(** What the estimators can ask of [np_mean]: the mean of zeros is zero
    (no sum of zeros rounds), and the mean of [N] copies of [c] is [c] (true
    when the partial sums are doubles, as for small integers; not in
    general). *)
Definition mean_of_zeros (np_mean : list R -> R) : Prop :=
  forall l, l <> [] -> Forall (fun v => v = 0) l -> np_mean l = 0.

Definition mean_exact_on (np_mean : list R -> R) (c : R) (N : nat) : Prop :=
  np_mean (repeat c N) = c.

(** [np.linalg.norm] of a vector. *)
Definition norm (v : list R) : R := sqrt (Rsum (map (fun x => x * x) v)).

(** [np.finfo(np.float64).tiny], the smallest positive normal double; the
    data is taken to be of dtype float64. *)
Definition tiny : R := / 2 ^ 1022.

(** [np.finfo(np.float64).max] *)
Definition float_max : R := (2 - / 2 ^ 52) * 2 ^ 1023.

(** Matrices, row by row: transpose and product. *)
Definition transpose3 (m : list (list R)) : list (list R) :=
  [column 0 m; column 1 m; column 2 m].

Definition dot_rows (u v : list R) : R :=
  Rsum (map (fun p => fst p * snd p) (combine u v)).

Definition matmul (m1 m2 : list (list R)) (n2 : nat) : list (list R) :=
  map (fun row => map (fun j => dot_rows row (column j m2)) (seq 0 n2)) m1.

Definition mat_sub (m1 m2 : list (list R)) : list (list R) :=
  map (fun p => vsub (fst p) (snd p)) (combine m1 m2).

Definition mat_neg (m : list (list R)) : list (list R) :=
  map (map Ropp) m.

(** ** Failed estimations and what [_estimate] hands back *)

(** The falsy object [from_estimate] returns when a fit fails; it carries
    the class name and the message. *)
Record FailedEstimation : Type := { message : string }.

(** [_estimate] returns [None] after setting the attributes of the model,
    or the message of a failed fit. *)
Inductive estimate_outcome (Model : Type) : Type :=
| Fitted (m : Model)
| Message (msg : string).
Arguments Fitted {Model} m.
Arguments Message {Model} msg.

(** [_BaseModel.from_estimate] (lines 67-80) around a given [_estimate]. *)
Definition base_from_estimate {Model : Type} (cls_name : string)
    (_estimate : ndarray -> result (estimate_outcome Model)) (data : ndarray)
  : result (estimation Model FailedEstimation) :=
  match _estimate data with
  | Raise e => Raise e
  | Ok (Fitted tf) => Ok (Estimated tf)
  | Ok (Message msg) => Ok (Failed {| message := cls_name ++ ": " ++ msg |})
  end.

(** Truth value of what [from_estimate] returns. *)
Definition truthy {Model Fail : Type} (e : estimation Model Fail) : bool :=
  match e with
  | Estimated _ => true
  | Failed _ => false
  end.

(** ** [LineModelND] (lines 165-290) *)

Record LineModelND : Type := {
  origin : list R;
  direction : list R;
}.

Section LineEstimator.
(** [np.mean]. *)
Variable np_mean : list R -> R.
(** The first row of [v] in [_, _, v = np.linalg.svd(data, full_matrices=False)]. *)
Variable svd_v0 : list (list R) -> list R.

Definition LineModelND__estimate (data : ndarray)
  : result (estimate_outcome LineModelND) :=
  if (ncols data <? 2)%nat then Raise (ValueError "Input data must be at least 2D.")
  else
    let origin := mean_axis0 np_mean data in
    let data := sub_rows (rows data) origin in
    match data with
    | [row0; row1] =>
        let direction := vsub row1 row0 in
        let norm := norm direction in
        let direction :=
          if Req_dec_T norm 0 then direction
          else map (fun x => x / norm) direction in
        Ok (Fitted {| origin := origin; direction := direction |})
    | _ :: _ :: _ :: _ =>
        Ok (Fitted {| origin := origin; direction := svd_v0 data |})
    | _ => Ok (Message "estimate under-determined")
    end.

Definition LineModelND_from_estimate (data : ndarray)
  : result (estimation LineModelND FailedEstimation) :=
  base_from_estimate "LineModelND" LineModelND__estimate data.

End LineEstimator.

(** ** [CircleModel] (lines 453-630) *)

Record CircleModel : Type := {
  circle_center : list R;
  radius : R;
}.

Section CircleEstimator.
(** [np.mean]. *)
Variable np_mean : list R -> R.
(** [np.linalg.lstsq(A, f, rcond=None)]: the solution and the rank. *)
Variable lstsq : list (list R) -> list R -> list R * nat.

(** [scale < tiny]; on an empty array [std] is nan, and the test is false. *)
Definition scale_too_small (data : list (list R)) (scale : R) : bool :=
  match data with
  | [] => false
  | _ => Rltb scale tiny
  end.

(** [spatial.minkowski_distance(center, data)], row by row. *)
Definition minkowski_distance (center : list R) (data : list (list R)) : list R :=
  map (fun row => norm (vsub center row)) data.

Definition CircleModel__estimate (data : ndarray)
  : result (estimate_outcome CircleModel) :=
  if negb (ncols data =? 2)%nat then Raise (ValueError "Input data must have shape (N, 2).")
  else
    let origin := mean_axis0 np_mean data in
    let data := sub_rows (rows data) origin in
    let scale := std np_mean data in
    if scale_too_small data scale then
      Ok (Message "Standard deviation of data is too small to estimate circle with meaningful precision.")
    else
      let data := map (map (fun v => v / scale)) data in
      let A := map (fun row => map (fun v => v * 2) row ++ [1]) data in
      let f := map (fun row => Rsum (map (fun v => v ^ 2) row)) data in
      let (C, rank) := lstsq A f in
      if negb (rank =? 3)%nat then
        Ok (Message "Input does not contain enough significant data points.")
      else
        let center := firstn 2 C in
        let distances := minkowski_distance center data in
        let r := sqrt (np_mean (map (fun v => v ^ 2) distances)) in
        Ok (Fitted {| circle_center := vadd (vscale center scale) origin;
                      radius := r * scale |}).

Definition CircleModel_from_estimate (data : ndarray)
  : result (estimation CircleModel FailedEstimation) :=
  base_from_estimate "CircleModel" CircleModel__estimate data.

End CircleEstimator.

(** ** Floats that may be nan or infinite, and rounding

    NumPy scalars do not raise on a division by zero or on the square root
    of a negative number: they yield [inf] or [nan].  The tail of the ellipse
    fit depends on that, and on the rounding of each operation: an operation
    on doubles returns the exact result rounded to a double.  The rounding
    is a parameter [rnd]; [np_arctan] is the arc tangent of libm. *)
Inductive fl : Type :=
| Num (r : R)
| PInf
| NInf
| NaN.

(** [np.pi], the double next to pi: 0x1.921fb54442d18p+1. *)
Definition np_pi : R := 884279719003555 / 2 ^ 48.

(** [x < y]; false as soon as one side is nan. *)
Definition flt (x y : fl) : bool :=
  match x, y with
  | NaN, _ | _, NaN => false
  | Num a, Num b => Rltb a b
  | NInf, NInf => false
  | NInf, _ => true
  | Num _, PInf => true
  | _, _ => false
  end.

(** [np.nan_to_num] *)
Definition nan_to_num (x : fl) : R :=
  match x with
  | Num r => r
  | PInf => float_max
  | NInf => - float_max
  | NaN => 0
  end.

(** The quotient of [fmod(x, k)] in C: [x / k] truncated towards zero. *)
Definition trunc (q : R) : Z := if Rle_dec 0 q then Zfloor q else Zceil q.

Section Rounding.
Variable rnd : R -> R.
Variable np_arctan : R -> R.

(** [x / y] on finite floats, for a divisor that is a difference: when it
    is zero it is [+0.0]. *)
Definition fdiv (x y : R) : fl :=
  if Req_dec_T y 0 then
    if Rlt_dec 0 x then PInf else if Rlt_dec x 0 then NInf else NaN
  else Num (rnd (x / y)).

(** The sign bit of the product of two doubles, a zero product included;
    the factors are differences, so a factor that is zero is [+0.0]. *)
Definition product_sign (p q : R) : bool := xorb (Rltb p 0) (Rltb q 0).

(** [x / y] for a divisor that is a product, [negative] its sign bit:
    dividing by [-0.0] gives the infinity of the opposite sign. *)
Definition fdiv_signed (x y : R) (negative : bool) : fl :=
  if Req_dec_T y 0 then
    if Req_dec_T x 0 then NaN
    else if xorb (Rltb x 0) negative then NInf else PInf
  else Num (rnd (x / y)).

(** [np.sqrt] *)
Definition fsqrt (x : fl) : fl :=
  match x with
  | Num r => if Rlt_dec r 0 then NaN else Num (rnd (sqrt r))
  | PInf => PInf
  | NInf => NaN
  | NaN => NaN
  end.

(** [np.arctan]; at infinity it is [np.pi / 2], a double. *)
Definition farctan (x : fl) : fl :=
  match x with
  | Num r => Num (np_arctan r)
  | PInf => Num (np_pi / 2)
  | NInf => Num (- (np_pi / 2))
  | NaN => NaN
  end.

(** [k * x] for a positive constant [k], and [x + k]. *)
Definition fscale (k : R) (x : fl) : fl :=
  match x with
  | Num r => Num (rnd (k * r))
  | other => other
  end.

Definition fplus (x : fl) (k : R) : fl :=
  match x with
  | Num r => Num (rnd (r + k))
  | other => other
  end.

(** [x % k] for a positive [k], as [np.remainder] computes it: the exact
    [fmod(x, k)] of C, which has the sign of [x], and, when that is
    negative, [k] added to it, which rounds. *)
Definition fmod (x : fl) (k : R) : fl :=
  match x with
  | Num r =>
      let rem := r - k * IZR (trunc (r / k)) in
      if Rlt_dec rem 0 then Num (rnd (rem + k)) else Num rem
  | _ => NaN
  end.

(** Lines 945-963: the swap that puts the longer axis first, the angle
    reduced modulo [np.pi], [nan_to_num], and the normalisation undone. *)
Definition ellipse_finish (x0 y0 width height phi : fl) (scale : R) (origin : list R)
  : list R * list R * R :=
  let swap := flt width height in
  let width' := if swap then height else width in
  let height' := if swap then width else height in
  let phi := if swap then fplus phi (rnd (np_pi / 2)) else phi in
  let phi := fmod phi np_pi in
  let params := map nan_to_num [x0; y0; width'; height'; phi] in
  let scaled := map (fun v => rnd (v * scale)) (firstn 4 params) in
  (map rnd (vadd (firstn 2 scaled) origin), skipn 2 scaled, nan_to_num phi).

End Rounding.

(** What is used of the rounding of doubles: it is monotone, it leaves the
    doubles 0 and [np.pi] as they are, and no finite double exceeds
    [float_max]. *)
Definition rounding (rnd : R -> R) : Prop :=
  (forall x y, x <= y -> rnd x <= rnd y) /\
  rnd 0 = 0 /\
  rnd np_pi = np_pi /\
  (forall x, rnd x <= float_max).

(** What [np.sqrt] can return: nan, inf, or a double that is not negative. *)
Definition axis_value (x : fl) : Prop :=
  match x with
  | Num r => 0 <= r <= float_max
  | PInf => True
  | NInf => False
  | NaN => True
  end.

(** ** [EllipseModel] (lines 707-964) *)

Record EllipseModel : Type := {
  ellipse_center : list R;
  axis_lengths : list R;
  theta : R;
}.

(** Constraint matrix [eqn. 18]. *)
Definition C1 : list (list R) := [[0; 0; 2]; [0; -1; 0]; [2; 0; 0]].

Section EllipseEstimator.
(** [np.mean], the rounding of an operation on doubles, and [np.arctan]. *)
Variable np_mean : list R -> R.
Variable rnd : R -> R.
Variable np_arctan : R -> R.
(** [numpy.linalg.inv]; [None] stands for [LinAlgError]. *)
Variable inv : list (list R) -> option (list (list R)).
(** The eigenvectors [np.linalg.eig] returns, that is, the columns of
    [eig_vecs], each as its three components; they are taken to be real. *)
Variable eig : list (list R) -> list (R * R * R).

(** Rounded operations on finite doubles. *)
Local Notation "x [+] y" := (rnd (x + y)) (at level 50, left associativity).
Local Notation "x [-] y" := (rnd (x - y)) (at level 50, left associativity).
Local Notation "x [*] y" := (rnd (x * y)) (at level 40, left associativity).
Local Abbreviation sq x := (rnd (x ^ 2)).

(** Lines 921-963: from the conic coefficients to centre, axes and angle. *)
Definition ellipse_from_conic (a b c d f g : R) (scale : R) (origin : list R)
  : EllipseModel :=
  let b := rnd (b / 2) in
  let d := rnd (d / 2) in
  let f := rnd (f / 2) in
  let x0 := fdiv rnd ((c [*] d) [-] (b [*] f)) (sq b [-] (a [*] c)) in
  let y0 := fdiv rnd ((a [*] f) [-] (b [*] d)) (sq b [-] (a [*] c)) in
  let numerator :=
    (a [*] sq f) [+] (c [*] sq d) [+] (g [*] sq b)
    [-] (2 [*] b [*] d [*] f) [-] (a [*] c [*] g) in
  let term := rnd (sqrt (sq (a [-] c) [+] (4 [*] sq b))) in
  let denominator1 := (sq b [-] (a [*] c)) [*] (term [-] (a [+] c)) in
  let negative1 := product_sign (sq b [-] (a [*] c)) (term [-] (a [+] c)) in
  let denominator2 := (sq b [-] (a [*] c)) [*] (rnd (- term) [-] (a [+] c)) in
  let negative2 := product_sign (sq b [-] (a [*] c)) (rnd (- term) [-] (a [+] c)) in
  let width := fsqrt rnd (fdiv_signed rnd (2 [*] numerator) denominator1 negative1) in
  let height := fsqrt rnd (fdiv_signed rnd (2 [*] numerator) denominator2 negative2) in
  let phi := fscale rnd (1 / 2) (farctan np_arctan (fdiv rnd (2 [*] b) (a [-] c))) in
  let phi := if Rltb c a then fplus rnd phi (rnd (1 / 2 * np_pi)) else phi in
  match ellipse_finish rnd x0 y0 width height phi scale origin with
  | (center, axes, angle) =>
      {| ellipse_center := center; axis_lengths := axes; theta := angle |}
  end.

(** What precedes the conic, lines 853-919, feeds [inv] and [eig] or is
    an operand of theirs; its arithmetic is left exact. *)
Definition EllipseModel__estimate (data : ndarray)
  : result (estimate_outcome EllipseModel) :=
  if negb (ncols data =? 2)%nat then Raise (ValueError "Input data must have shape (N, 2).")
  else if (length (rows data) <? 5)%nat then
    Ok (Message "Need at least 5 data points to estimate an ellipse.")
  else
    let origin := mean_axis0 np_mean data in
    let data := sub_rows (rows data) origin in
    let scale := std np_mean data in
    if Rltb scale tiny then
      Ok (Message "Standard deviation of data is too small to estimate ellipse with meaningful precision.")
    else
      let data := map (map (fun v => v / scale)) data in
      let x := column 0 data in
      let y := column 1 data in
      let D1 := map (fun p => [fst p ^ 2; fst p * snd p; snd p ^ 2]) (combine x y) in
      let D2 := map (fun p => [fst p; snd p; 1]) (combine x y) in
      let S1 := matmul (transpose3 D1) D1 3 in
      let S2 := matmul (transpose3 D1) D2 3 in
      let S3 := matmul (transpose3 D2) D2 3 in
      match inv C1, inv S3 with
      | Some iC1, Some iS3 =>
          let M := matmul iC1 (mat_sub S1 (matmul (matmul S2 iS3 3) (transpose3 S2) 3)) 3 in
          let eig_vecs := eig M in
          let a1 :=
            filter (fun v => match v with (a, b, c) => Rltb 0 (4 * a * c - b ^ 2) end)
                   eig_vecs in
          match a1 with
          | [(a, b, c)] =>
              let a2 := matmul (matmul (mat_neg iS3) (transpose3 S2) 3) [[a]; [b]; [c]] 1 in
              match concat a2 with
              | [d; f; g] => Ok (Fitted (ellipse_from_conic a b c d f g scale origin))
              | _ => Raise (ValueError "not enough values to unpack")
              end
          | _ => Ok (Message "Eigenvector constraints not met")
          end
      | _, _ => Ok (Message "Singular matrix from estimation")
      end.

Definition EllipseModel_from_estimate (data : ndarray)
  : result (estimation EllipseModel FailedEstimation) :=
  base_from_estimate "EllipseModel" EllipseModel__estimate data.

End EllipseEstimator.

(** ** The RANSAC engine (fit.py, lines 1165-1493) *)

(** [x < best] where [best] starts as [np.inf]. *)
Definition lt_ext (x : R) (best : ext R) : bool :=
  match best with
  | Inf => true
  | Fin b => Rltb x b
  end.

(** [count >= stop_sample_num], the latter [np.inf] by default. *)
Definition ge_ext (count : nat) (stop : ext Z) : bool :=
  match stop with
  | Inf => false
  | Fin z => (z <=? Z.of_nat count)%Z
  end.

(** Python's [min(a, b)]: [b] when [b < a], otherwise [a]. *)
Definition py_min (a : Z) (b : ext Z) : Z :=
  match b with
  | Inf => a
  | Fin t => if (t <? a)%Z then t else a
  end.
Arguments py_min : simpl never.

(** [np.count_nonzero] and [any] on a boolean array; [u.dot(v)]. *)
Definition count_nonzero (l : list bool) : nat := length (filter (fun b => b) l).
Definition any (l : list bool) : bool := existsb (fun b => b) l.
Definition dot (u v : list R) : R :=
  fold_right Rplus 0 (map (fun p => fst p * snd p) (combine u v)).

(** What an attribute lookup on an object can do. *)
Inductive lookup (Obj : Type) : Type :=
| Found (o : Obj)
| AttributeError
| OtherError (e : exn).
Arguments Found {Obj} o.
Arguments AttributeError {Obj}.
Arguments OtherError {Obj} e.

(** The index object held by [spl_idxs]: the caller's boolean mask on the
    first trial, an integer array drawn by [rng.choice] afterwards. *)
Inductive index : Type :=
| Mask (m : list bool)
| Indices (i : list nat).

(** The trace is bookkeeping of the model, not a variable of the source: it
    records each draw of the generator, each call into the model class or a
    predicate, and each warning, in the order they happen. *)
Inductive event : Type :=
| EvChoice
| EvIsDataValid
| EvFromEstimate
| EvIsModelValid
| EvResiduals
| EvWarn (msg : string).

(** Outcome of an effectful run; [OutOfFuel] is the bounded loop giving up. *)
Inductive outcome (A : Type) : Type :=
| Returns (a : A)
| Raises (e : exn)
| OutOfFuel.
Arguments Returns {A} a.
Arguments Raises {A} e.
Arguments OutOfFuel {A}.

Section Ransac.
Context {Row Model Fail Obj G : Type}.

(** A data array: [N] rows along the leading dimension. *)
Local Abbreviation array := (list Row).

Local Abbreviation estimation := (estimation Model Fail).

(** What the last line of [ransac] puts in the model position: [RNone] is
    the [None] of the branch without inliers; the object a fit returns, or
    the value of its ['model'] attribute, is whatever the class makes it,
    Python's [None] not excluded. *)
Inductive returned_model : Type :=
| RNone
| REstimation (e : estimation)
| RAttr (o : Obj).

(** A model class under the RANSAC protocol.  The callables receive the
    arrays themselves and may write into them: each returns, beside its
    value, the contents of its array arguments when it is done.  They are
    taken to return normally.
    [model_attr] and [fail_attr] say what looking up the attribute
    ['model'] does on a fitted model and on a failure object. *)
Record model_cls : Type := {
  from_estimate : list array -> estimation * list array;
  residuals : Model -> list array -> list R * list array;
  model_attr : Model -> lookup Obj;
  fail_attr : Fail -> lookup Obj;
}.

(** The arguments of [ransac] other than [data] and the generator state,
    which live in the world below. *)
Record ransac_args : Type := {
  model_class : model_cls;
  min_samples : Z;
  residual_threshold : R;
  is_data_valid : option (list array -> bool * list array);
  is_model_valid : option (estimation -> list array -> bool * list array);
  max_trials_arg : Z;
  stop_sample_num : ext Z;
  stop_residuals_sum : R;
  stop_probability : R;
  rng_choice : G -> nat -> nat -> list nat * G;
  initial_inliers : option (list bool);
}.

(** The mutable objects a call can touch: the caller's data arrays, the
    generator, and the trace. *)
Record world : Type := {
  w_data : list array;
  w_rng : G;
  w_log : list event;
}.

(** The local variables of the trial loop. *)
Record locals : Type := {
  best_inlier_num : nat;
  best_inlier_residuals_sum : ext R;
  best_inliers : list bool;
  max_trials : Z;
  num_trials : Z;
  spl_idxs : index;
}.

(** *** A state-and-exception monad over the world *)

Definition M (A : Type) : Type := world -> outcome A * world.

Definition ret {A} (a : A) : M A := fun w => (Returns a, w).

Definition bind {A B} (c : M A) (k : A -> M B) : M B :=
  fun w =>
    match c w with
    | (Returns a, w') => k a w'
    | (Raises e, w') => (Raises e, w')
    | (OutOfFuel, w') => (OutOfFuel, w')
    end.

Definition raise {A} (e : exn) : M A := fun w => (Raises e, w).

Definition out_of_fuel {A} : M A := fun w => (OutOfFuel, w).

Definition lift {A} (r : result A) : M A :=
  match r with
  | Ok a => ret a
  | Raise e => raise e
  end.

Definition get_data : M (list array) := fun w => (Returns (w_data w), w).

Definition set_data (d : list array) : M unit :=
  fun w => (Returns tt, {| w_data := d; w_rng := w_rng w; w_log := w_log w |}).

Definition emit (e : event) : M unit :=
  fun w => (Returns tt,
            {| w_data := w_data w; w_rng := w_rng w; w_log := w_log w ++ [e] |}).

Definition warn (msg : string) : M unit := emit (EvWarn msg).

End Ransac.

Arguments returned_model : clear implicits.
Arguments model_cls : clear implicits.
Arguments ransac_args : clear implicits.
Arguments world : clear implicits.
Arguments M : clear implicits.

Declare Scope ransac_scope.
Delimit Scope ransac_scope with ransac.
Notation "x <- c ;; k" := (bind c (fun x => k))
  (at level 61, c at next level, right associativity) : ransac_scope.
Notation "c ;;; k" := (bind c (fun _ => k))
  (at level 61, right associativity) : ransac_scope.

Section RansacEngine.
Context {Row Model Fail Obj G : Type}.
Local Open Scope ransac_scope.

Local Abbreviation args := (ransac_args Row Model Fail Obj G).
Local Abbreviation est := (estimation Model Fail).
Local Abbreviation Mon := (M Row G).

(** *** Indexing: [d[spl_idxs]] builds a new array *)

Fixpoint take_indices (d : list Row) (idxs : list nat) : result (list Row) :=
  match idxs with
  | [] => Ok []
  | i :: rest =>
      match nth_error d i with
      | None => Raise IndexError
      | Some r =>
          match take_indices d rest with
          | Ok l => Ok (r :: l)
          | Raise e => Raise e
          end
      end
  end.

Fixpoint take_mask (d : list Row) (mask : list bool) : list Row :=
  match d, mask with
  | r :: d', b :: mask' => if b then r :: take_mask d' mask' else take_mask d' mask'
  | _, _ => []
  end.

(** A boolean index must have the length of the array; an integer index
    must stay inside it. *)
Definition getitem (d : list Row) (idx : index) : result (list Row) :=
  match idx with
  | Mask m =>
      if Nat.eqb (length m) (length d) then Ok (take_mask d m) else Raise IndexError
  | Indices i => take_indices d i
  end.

(** [[d[idx] for d in data]] *)
Fixpoint getitem_all (data : list (list Row)) (idx : index) : result (list (list Row)) :=
  match data with
  | [] => Ok []
  | d :: rest =>
      match getitem d idx with
      | Raise e => Raise e
      | Ok x =>
          match getitem_all rest idx with
          | Raise e => Raise e
          | Ok xs => Ok (x :: xs)
          end
      end
  end.

(** *** Effects of one call *)

(** Reads the caller's arrays and copies the selected rows out of them. *)
Definition select (idx : index) : Mon (list (list Row)) :=
  d <- get_data ;; lift (getitem_all d idx).

(** [rng.choice(num_samples, min_samples, replace=False)] *)
Definition choice (a : args) (num_samples : nat) : Mon index :=
  fun w =>
    let (i, g) := rng_choice a (w_rng w) num_samples (Z.to_nat (min_samples a)) in
    (Returns (Indices i),
     {| w_data := w_data w; w_rng := g; w_log := w_log w ++ [EvChoice] |}).

Definition call_from_estimate (a : args) (xs : list (list Row))
  : Mon (est * list (list Row)) :=
  emit EvFromEstimate ;;; ret (from_estimate (model_class a) xs).

Definition call_is_data_valid (f : list (list Row) -> bool * list (list Row))
    (xs : list (list Row)) : Mon (bool * list (list Row)) :=
  emit EvIsDataValid ;;; ret (f xs).

Definition call_is_model_valid (f : est -> list (list Row) -> bool * list (list Row))
    (model : est) (xs : list (list Row)) : Mon (bool * list (list Row)) :=
  emit EvIsModelValid ;;; ret (f model xs).

(** [model.residuals] is handed the caller's arrays, not copies:
    whatever it leaves in them is what the caller's arrays hold afterwards. *)
Definition call_residuals (a : args) (m : Model) : Mon (list R) :=
  emit EvResiduals ;;;
  d <- get_data ;;
  let (r, d') := residuals (model_class a) m d in
  set_data d' ;;; ret r.

(** *** The loop body *)

(** The test that makes a trial the new best. *)
Definition improves (inliers_count : nat) (residuals_sum : R) (s : locals) : bool :=
  (best_inlier_num s <? inliers_count)%nat
  || ((inliers_count =? best_inlier_num s)%nat
      && lt_ext residuals_sum (best_inlier_residuals_sum s)).

(** The early-stop test, read after an update. *)
Definition stops (a : args) (s : locals) : bool :=
  ge_ext (best_inlier_num s) (stop_sample_num a)
  || match best_inlier_residuals_sum s with
     | Fin r => Rleb r (stop_residuals_sum a)
     | Inf => false
     end.

(** The assignments made when a trial is the new best. *)
Definition update_best (a : args) (num_samples : nat) (s : locals)
    (inliers : list bool) (residuals_sum : R) : result locals :=
  match _dynamic_max_trials (count_nonzero inliers) num_samples
          (Z.to_nat (min_samples a)) (stop_probability a) with
  | Raise e => Raise e
  | Ok bound =>
      Ok {| best_inlier_num := count_nonzero inliers;
            best_inlier_residuals_sum := Fin residuals_sum;
            best_inliers := inliers;
            max_trials := py_min (max_trials s) bound;
            num_trials := num_trials s;
            spl_idxs := spl_idxs s |}
  end.

(** Scoring of a model over the whole data set (lines 1449-1478). *)
Definition score (a : args) (num_samples : nat) (s : locals) (m : Model)
  : Mon (locals * bool) :=
  res <- call_residuals a m ;;
  let residuals := map Rabs res in
  let inliers := map (fun r => Rltb r (residual_threshold a)) residuals in
  let residuals_sum := dot residuals residuals in
  let inliers_count := count_nonzero inliers in
  if improves inliers_count residuals_sum s then
    s' <- lift (update_best a num_samples s inliers residuals_sum) ;;
    ret (s', stops a s')
  else ret (s, false).

(** One pass through the body of the [while] loop; the boolean says
    whether it left the loop through [break]. *)
Definition trial (a : args) (num_samples : nat) (s : locals) : Mon (locals * bool) :=
  samples <- select (spl_idxs s) ;;
  idx <- choice a num_samples ;;
  let s := {| best_inlier_num := best_inlier_num s;
              best_inlier_residuals_sum := best_inlier_residuals_sum s;
              best_inliers := best_inliers s;
              max_trials := max_trials s;
              num_trials := (num_trials s + 1)%Z;
              spl_idxs := idx |} in
  v <- match is_data_valid a with
       | None => ret (true, samples)
       | Some f => call_is_data_valid f samples
       end ;;
  if negb (fst v) then ret (s, false)
  else
    e <- call_from_estimate a (snd v) ;;
    match fst e with
    | Failed _ => ret (s, false)
    | Estimated m =>
        v' <- match is_model_valid a with
              | None => ret (true, snd e)
              | Some f => call_is_model_valid f (fst e) (snd e)
              end ;;
        if negb (fst v') then ret (s, false)
        else score a num_samples s m
    end.

(** [while num_trials < max_trials: ...], bounded by [fuel] passes. *)
Fixpoint while_loop (a : args) (num_samples : nat) (fuel : nat) (s : locals)
  : Mon locals :=
  if (num_trials s <? max_trials s)%Z then
    match fuel with
    | O => out_of_fuel
    | S fuel' =>
        r <- trial a num_samples s ;;
        if snd r then ret (fst r) else while_loop a num_samples fuel' (fst r)
    end
  else ret s.

(** *** Argument checks, finalization, and [ransac] itself *)

Definition validate (a : args) (num_samples : nat) : result unit :=
  if negb ((0 <? min_samples a)%Z && (min_samples a <=? Z.of_nat num_samples)%Z)
  then Raise (ValueError ("`min_samples` must be in range (0, " ++ str num_samples ++ "]"))
  else if Rltb (residual_threshold a) 0
  then Raise (ValueError "`residual_threshold` must be greater than zero")
  else if (max_trials_arg a <? 0)%Z
  then Raise (ValueError "`max_trials` must be greater than zero")
  else if negb (Rleb 0 (stop_probability a) && Rleb (stop_probability a) 1)
  then Raise (ValueError "`stop_probability` must be in range [0, 1]")
  else
    match initial_inliers a with
    | Some m =>
        if negb (Nat.eqb (length m) num_samples)
        then Raise (ValueError
                      ("RANSAC received a vector of initial inliers (length "
                       ++ str (length m) ++ ") that didn't match the number of samples ("
                       ++ str num_samples
                       ++ "). The vector of initial inliers should have the same length as the number of samples and contain only True (this sample is an initial inlier) and False (this one isn't) values."))
        else Ok tt
    | None => Ok tt
    end.

(** [getattr(model, 'model', model)]: the default is returned exactly when
    the lookup raises an [AttributeError]. *)
Definition getattr_model (a : args) (model : est) : Mon (returned_model Model Fail Obj) :=
  match match model with
        | Estimated m => model_attr (model_class a) m
        | Failed f => fail_attr (model_class a) f
        end with
  | Found o => ret (RAttr o)
  | AttributeError => ret (REstimation model)
  | OtherError e => raise e
  end.

(** Lines 1480-1493. *)
Definition finalize (a : args) (s : locals)
  : Mon (returned_model Model Fail Obj * option (list bool)) :=
  if any (best_inliers s) then
    data_inliers <- select (Mask (best_inliers s)) ;;
    e <- call_from_estimate a data_inliers ;;
    match is_model_valid a with
    | None => ret tt
    | Some f =>
        v <- call_is_model_valid f (fst e) (snd e) ;;
        if negb (fst v)
        then warn "Estimated model is not valid. Try increasing max_trials."
        else ret tt
    end ;;;
    r <- getattr_model a (fst e) ;;
    ret (r, Some (best_inliers s))
  else
    warn "No inliers found. Model not fitted" ;;;
    ret (RNone, None).

(** The absolute residuals and the inlier mask a model yields over a data
    set (lines 1449-1451), as the scoring step computes them. *)
Definition abs_residuals (a : args) (m : Model) (d : list (list Row)) : list R :=
  map Rabs (fst (residuals (model_class a) m d)).

Definition inlier_mask (a : args) (m : Model) (d : list (list Row)) : list bool :=
  map (fun r => Rltb r (residual_threshold a)) (abs_residuals a m d).

(** The state the loop starts from. *)
Definition initial_locals (a : args) (spl : index) : locals :=
  {| best_inlier_num := 0;
     best_inlier_residuals_sum := Inf;
     best_inliers := [];
     max_trials := max_trials_arg a;
     num_trials := 0;
     spl_idxs := spl |}.

(** After the checks: the first sample selection, then the trials. *)
Definition ransac_sampling (a : args) (num_samples : nat) : Mon locals :=
  spl <- match initial_inliers a with
         | Some m => ret (Mask m)
         | None => choice a num_samples
         end ;;
  while_loop a num_samples (Z.to_nat (max_trials_arg a)) (initial_locals a spl).

(** Everything up to the end of the loop: [len(data[0])], the checks, the
    first sample selection, the trials. *)
Definition ransac_trials (a : args) : Mon locals :=
  data <- get_data ;;
  match data with
  | [] => raise IndexError
  | d0 :: _ =>
      let num_samples := length d0 in
      lift (validate a num_samples) ;;;
      ransac_sampling a num_samples
  end.

(** [ransac].  A [model_cls] has [from_estimate] and [residuals], so
    [add_from_estimate] returns the class as it is and the protocol check
    passes; neither is modelled. *)
Definition ransac (a : args)
  : Mon (returned_model Model Fail Obj * option (list bool)) :=
  s <- ransac_trials a ;; finalize a s.

(** *** Conditions on the arguments *)

(** The arguments every eager check accepts, for [N] samples. *)
Definition inputs_valid (a : args) (N : nat) : Prop :=
  (0 < min_samples a <= Z.of_nat N)%Z /\
  0 <= residual_threshold a /\
  (0 <= max_trials_arg a)%Z /\
  0 <= stop_probability a <= 1 /\
  (forall m, initial_inliers a = Some m -> length m = N).

(** A model class whose [residuals] leaves the arrays it is given as they
    were, and one whose [residuals] returns one value per sample. *)
Definition residuals_read_only (cls : model_cls Row Model Fail Obj) : Prop :=
  forall m d, snd (residuals cls m d) = d.

Definition residuals_per_sample (cls : model_cls Row Model Fail Obj) : Prop :=
  forall m d, length (fst (residuals cls m d)) = length (hd [] d).

(** The sample a trial hands to [from_estimate]: the selected rows, as
    [is_data_valid] left them when it is supplied. *)
Definition checked_sample (a : args) (selected : list (list Row)) : list (list Row) :=
  match is_data_valid a with
  | None => selected
  | Some f => snd (f selected)
  end.

End RansacEngine.

(** ** Model classes and a generator to run the engine on *)

(** A generator that replays a recorded tape of draws. *)
Definition tape_choice (g : list (list nat)) (_ _ : nat) : list nat * list (list nat) :=
  match g with
  | [] => ([], [])
  | draw :: g' => (draw, g')
  end.

(** Points on the real line; the model is a location, fitted as the mean
    of the sample; the residual of a point is its signed distance to it. *)
Definition location_from_estimate (xs : list (list R))
  : estimation R string * list (list R) :=
  match xs with
  | [(_ :: _) as sample] => (Estimated (mean sample), xs)
  | _ => (Failed "LocationModel: no sample"%string, xs)
  end.

Definition location_residuals (m : R) (xs : list (list R)) : list R * list (list R) :=
  (map (fun x => x - m) (hd [] xs), xs).

Definition LocationModel : model_cls R R string unit :=
  {| from_estimate := location_from_estimate;
     residuals := location_residuals;
     model_attr := fun _ => AttributeError;
     fail_attr := fun _ => AttributeError |}.

(** The same, except that the fit needs exactly one point. *)
Definition single_point_from_estimate (xs : list (list R))
  : estimation R string * list (list R) :=
  match xs with
  | [[x]] => (Estimated x, xs)
  | _ => (Failed "SinglePointModel: estimation failed"%string, xs)
  end.

Definition SinglePointModel : model_cls R R string unit :=
  {| from_estimate := single_point_from_estimate;
     residuals := location_residuals;
     model_attr := fun _ => AttributeError;
     fail_attr := fun _ => AttributeError |}.

(** The same as [LocationModel], except that [residuals] centres the
    caller's array in place before it returns. *)
Definition centring_residuals (m : R) (xs : list (list R)) : list R * list (list R) :=
  (map (fun x => x - m) (hd [] xs), map (map (fun x => x - m)) xs).

Definition CentringModel : model_cls R R string unit :=
  {| from_estimate := location_from_estimate;
     residuals := centring_residuals;
     model_attr := fun _ => AttributeError;
     fail_attr := fun _ => AttributeError |}.

Definition fixture_args (cls : model_cls R R string unit) (min_samples max_trials : Z)
    (residual_threshold stop_probability : R)
  : ransac_args R R string unit (list (list nat)) :=
  {| model_class := cls;
     min_samples := min_samples;
     residual_threshold := residual_threshold;
     is_data_valid := None;
     is_model_valid := None;
     max_trials_arg := max_trials;
     stop_sample_num := Inf;
     stop_residuals_sum := 0;
     stop_probability := stop_probability;
     rng_choice := tape_choice;
     initial_inliers := None |}.

Definition fixture_world (d : list R) (tape : list (list nat))
  : world R (list (list nat)) :=
  {| w_data := [d]; w_rng := tape; w_log := [] |}.

(** A run over four points, one point per sample, two trials: the first
    draw selects the point 6, the second the point 12. *)
Definition spread_args : ransac_args R R string unit (list (list nat)) :=
  fixture_args LocationModel 1 2 2 1.

Definition spread_world : world R (list (list nat)) :=
  fixture_world [0; 6; 12; 13] [[1%nat]; [2%nat]; [0%nat]].

(** The world and the locals at the loop's entry, after one trial, after two. *)
Definition spread_entry : world R (list (list nat)) :=
  {| w_data := [[0; 6; 12; 13]]; w_rng := [[2%nat]; [0%nat]]; w_log := [EvChoice] |}.

Definition spread_s0 : locals := initial_locals spread_args (Indices [1%nat]).

Definition spread_s1 : locals :=
  {| best_inlier_num := 1;
     best_inlier_residuals_sum := Fin 121;
     best_inliers := [false; true; false; false];
     max_trials := 2;
     num_trials := 1;
     spl_idxs := Indices [2%nat] |}.

Definition spread_w1 : world R (list (list nat)) :=
  {| w_data := [[0; 6; 12; 13]]; w_rng := [[0%nat]];
     w_log := [EvChoice; EvChoice; EvFromEstimate; EvResiduals] |}.

Definition spread_s2 : locals :=
  {| best_inlier_num := 2;
     best_inlier_residuals_sum := Fin 181;
     best_inliers := [false; false; true; true];
     max_trials := 2;
     num_trials := 2;
     spl_idxs := Indices [0%nat] |}.

Definition spread_w2 : world R (list (list nat)) :=
  {| w_data := [[0; 6; 12; 13]]; w_rng := [];
     w_log := [EvChoice; EvChoice; EvFromEstimate; EvResiduals;
               EvChoice; EvFromEstimate; EvResiduals] |}.

(** Arguments the first check refuses: no point per sample. *)
Definition refused_args : ransac_args R R string unit (list (list nat)) :=
  fixture_args LocationModel 0 2 2 1.

(** A run whose final fit over the two inliers fails. *)
Definition single_args : ransac_args R R string unit (list (list nat)) :=
  fixture_args SinglePointModel 1 1 2 0.

Definition single_world : world R (list (list nat)) :=
  fixture_world [0; 1] [[0%nat]; [1%nat]].

Definition single_s1 : locals :=
  {| best_inlier_num := 2;
     best_inlier_residuals_sum := Fin 1;
     best_inliers := [true; true];
     max_trials := 0;
     num_trials := 1;
     spl_idxs := Indices [1%nat] |}.

Definition single_w1 : world R (list (list nat)) :=
  {| w_data := [[0; 1]]; w_rng := [];
     w_log := [EvChoice; EvChoice; EvFromEstimate; EvResiduals] |}.

(** A run whose refined model moves away from the model of the trial. *)
Definition drift_args : ransac_args R R string unit (list (list nat)) :=
  fixture_args LocationModel 1 1 20 0.

Definition drift_world : world R (list (list nat)) :=
  fixture_world [0; 19; 29] [[0%nat]; [1%nat]].

Definition drift_final : world R (list (list nat)) :=
  {| w_data := [[0; 19; 29]]; w_rng := [];
     w_log := [EvChoice; EvChoice; EvFromEstimate; EvResiduals; EvFromEstimate] |}.

(** A run with a model class whose [residuals] writes into its argument. *)
Definition centring_args : ransac_args R R string unit (list (list nat)) :=
  fixture_args CentringModel 1 1 2 0.

Definition centring_world : world R (list (list nat)) :=
  fixture_world [1; 3] [[0%nat]; [1%nat]].

Definition centring_final : world R (list (list nat)) :=
  {| w_data := [[0; 2]]; w_rng := [];
     w_log := [EvChoice; EvChoice; EvFromEstimate; EvResiduals; EvFromEstimate] |}.

(** ** Data and oracles to run the estimators on *)

(** Two copies of one point. *)
Definition twin_points : ndarray := {| ncols := 2; rows := [[1; 1]; [1; 1]] |}.

(** Oracles that answer nothing useful: no singular vector, rank 0, no
    inverse, no eigenvector. *)
Definition no_svd (_ : list (list R)) : list R := [].
Definition no_lstsq (_ : list (list R)) (_ : list R) : list R * nat := ([], 0%nat).
Definition no_inv (_ : list (list R)) : option (list (list R)) := None.
Definition no_eig (_ : list (list R)) : list (R * R * R) := [].

(** Six points on the corners of a square. *)
Definition square_points : ndarray :=
  {| ncols := 2;
     rows := [[1; 1]; [-1; -1]; [1; -1]; [-1; 1]; [1; 1]; [-1; -1]] |}.

(** Each corner of the square twice, and oracles under which the ellipse
    fit goes through: every matrix has 5/2 times the identity as its
    inverse, and the one eigenvector is (1, 0, 4), or (1, 3 * 2^-60, 4). *)
Definition corner_points : ndarray :=
  {| ncols := 2;
     rows := [[1; 1]; [1; -1]; [-1; 1]; [-1; -1];
              [1; 1]; [1; -1]; [-1; 1]; [-1; -1]] |}.

Definition scaled_inv (_ : list (list R)) : option (list (list R)) :=
  Some [[5 / 2; 0; 0]; [0; 5 / 2; 0]; [0; 0; 5 / 2]].

Definition upright_eig (_ : list (list R)) : list (R * R * R) := [(1, 0, 4)].

Definition tilted_eig (_ : list (list R)) : list (R * R * R) := [(1, 3 / 2 ^ 60, 4)].

(** A rounding that never exceeds [float_max]. *)
Definition saturate (x : R) : R := Rmin x float_max.

(** The rounding of doubles as far as the run on [tilted_eig] meets it: a
    number within 2^-53 of one of the doubles -4, 9, 400 and [np.pi] rounds
    to that double (their neighbours are at least 2^-51 away); every other
    number that run rounds is a double already. *)
Definition near (t x : R) : bool := Rleb (t - / 2 ^ 53) x && Rleb x (t + / 2 ^ 53).

Definition rounded_here (x : R) : R :=
  if near (-4) x then -4
  else if near 9 x then 9
  else if near 400 x then 400
  else if near np_pi x then np_pi
  else x.

(** The rounding of doubles as far as the conic (1, 0, 2^-60, 0, 0,
    -25 * 2^60) meets it: [1 - 2^-60] and [1 + 2^-60] round to 1; every
    other number rounded there is a double already. *)
Definition rounded_to_one (x : R) : R := if near 1 x then 1 else x.

(** [np.arctan] at the one argument that run hands it, -2^-60: libm
    returns the argument. *)
Definition arctan_here (x : R) : R :=
  if Req_dec_T x (- / 2 ^ 60) then - / 2 ^ 60 else atan x.

(** ** Methods of the geometric models

    The methods below read the attributes of an initialised model. *)

(** What [x, y = v] raises for a [v] of [n] entries, [n] other than two
    (the wording of CPython up to 3.13). *)
Definition unpack2_error (n : nat) : exn :=
  if (n <? 2)%nat
  then ValueError ("not enough values to unpack (expected 2, got " ++ str n ++ ")")
  else ValueError "too many values to unpack (expected 2)".

(** [CircleModel._check_init_values], [_params2init_values] and the
    [params] property (lines 543-563). *)
Definition CircleModel__check_init_values (center : list R) (radius : R)
  : result (list R * R) :=
  if negb (length center =? 2)%nat
  then Raise (ValueError "Center coordinates should be length 2")
  else Ok (center, radius).

Definition CircleModel__params2init_values (params : list R) : result (list R * R) :=
  if negb (length params =? 3)%nat
  then Raise (ValueError "Input `params` should be length 3")
  else CircleModel__check_init_values (firstn 2 params) (nth 2 params 0).

Definition CircleModel_params (self : CircleModel) : list R :=
  circle_center self ++ [radius self].

(** [EllipseModel._check_init_values], [_params2init_values] and the
    [params] property (lines 796-818). *)
Definition EllipseModel__check_init_values (center axis_lengths : list R) (theta : R)
  : result (list R * list R * R) :=
  if negb (length center =? 2)%nat
  then Raise (ValueError "Center coordinates should be length 2")
  else if negb (length axis_lengths =? 2)%nat
  then Raise (ValueError "Axis lengths should be length 2")
  else Ok (center, axis_lengths, theta).

Definition EllipseModel__params2init_values (params : list R)
  : result (list R * list R * R) :=
  if negb (length params =? 5)%nat
  then Raise (ValueError "Input `params` should be length 5")
  else EllipseModel__check_init_values
         (firstn 2 params) (firstn 2 (skipn 2 params)) (nth 4 params 0).

Definition EllipseModel_params (self : EllipseModel) : list R :=
  ellipse_center self ++ axis_lengths self ++ [theta self].

(** The point of the ellipse at parameter [t] (lines 997-1002). *)
Definition ellipse_point (xc yc a b theta t : R) : R * R :=
  let ct := cos t in
  let st := sin t in
  let ctheta := cos theta in
  let stheta := sin theta in
  (xc + a * ctheta * ct - b * stheta * st,
   yc + a * stheta * ct + b * ctheta * st).

Section EllipseResiduals.
(** [np.arctan2], and the minimiser [scipy.optimize.leastsq] returns for an
    objective and a starting value. *)
Variable arctan2 : R -> R -> R.
Variable leastsq : (R -> R) -> R -> R.

(** [EllipseModel.residuals] (lines 966-1028). *)
Definition EllipseModel_residuals (self : EllipseModel) (data : ndarray)
  : result (list R) :=
  if negb (ncols data =? 2)%nat then Raise (ValueError "Input data must have shape (N, 2).")
  else
    match ellipse_center self with
    | [xc; yc] =>
        match axis_lengths self with
        | [a; b] =>
            Ok (map (fun row =>
                       let xi := nth 0 row 0 in
                       let yi := nth 1 row 0 in
                       let fun_ := fun t =>
                         let xyt := ellipse_point xc yc a b (theta self) t in
                         (xi - fst xyt) ^ 2 + (yi - snd xyt) ^ 2 in
                       let t0 := arctan2 (yi - yc) (xi - xc) - theta self in
                       let t := leastsq fun_ t0 in
                       sqrt (fun_ t))
                    (rows data))
        | _ => Raise (unpack2_error (length (axis_lengths self)))
        end
    | _ => Raise (unpack2_error (length (ellipse_center self)))
    end.

End EllipseResiduals.

(** ** Models to run the methods on *)

(** A circle and an ellipse. *)
Definition unit_circle_at_2_3 : CircleModel := {| circle_center := [2; 3]; radius := 1 |}.

Definition flat_ellipse : EllipseModel :=
  {| ellipse_center := [10; 15]; axis_lengths := [8; 4]; theta := 0 |}.

(** The least-squares solution of the circle system for [square_points]:
    centre (0, 0), squared radius 2, full rank. *)
Definition square_lstsq (_ : list (list R)) (_ : list R) : list R * nat :=
  ([0; 0; 2], 3%nat).

(** ** Counting the calls in a trace *)

Definition is_choice (e : event) : bool :=
  match e with EvChoice => true | _ => false end.

Definition is_from_estimate (e : event) : bool :=
  match e with EvFromEstimate => true | _ => false end.

Definition is_residuals (e : event) : bool :=
  match e with EvResiduals => true | _ => false end.

Definition count_events (p : event -> bool) (log : list event) : nat :=
  length (filter p log).

(** ** More runs of the engine *)

(** No trial at all. *)
Definition idle_args : ransac_args R R string unit (list (list nat)) :=
  fixture_args LocationModel 1 0 2 1.

(** Every sample is refused by [is_data_valid]. *)
Definition picky_args : ransac_args R R string unit (list (list nat)) :=
  {| model_class := LocationModel;
     min_samples := 1;
     residual_threshold := 2;
     is_data_valid := Some (fun xs => (false, xs));
     is_model_valid := None;
     max_trials_arg := 2;
     stop_sample_num := Inf;
     stop_residuals_sum := 0;
     stop_probability := 1;
     rng_choice := tape_choice;
     initial_inliers := None |}.

(** A model class whose fit always fails. *)
Definition FailingModel : model_cls R R string unit :=
  {| from_estimate := fun xs => (Failed "FailingModel: estimation failed"%string, xs);
     residuals := location_residuals;
     model_attr := fun _ => AttributeError;
     fail_attr := fun _ => AttributeError |}.

Definition failing_args : ransac_args R R string unit (list (list nat)) :=
  fixture_args FailingModel 1 2 2 1.

(** Two points close to each other: any one of them fits both. *)
Definition close_args : ransac_args R R string unit (list (list nat)) :=
  fixture_args LocationModel 1 5 2 (1 / 2).

Definition close_world : world R (list (list nat)) :=
  fixture_world [5; 6] [[0%nat]; [1%nat]; [0%nat]].

Definition close_entry : world R (list (list nat)) :=
  {| w_data := [[5; 6]]; w_rng := [[1%nat]; [0%nat]]; w_log := [EvChoice] |}.

Definition close_s0 : locals := initial_locals close_args (Indices [0%nat]).

(** The locals and the world after the first pass: the point 5 fits both
    points, and the trial budget of 5 is cut to 1. *)
Definition close_s1 : locals :=
  {| best_inlier_num := 2;
     best_inlier_residuals_sum := Fin 1;
     best_inliers := [true; true];
     max_trials := 1;
     num_trials := 1;
     spl_idxs := Indices [1%nat] |}.

Definition close_w1 : world R (list (list nat)) :=
  {| w_data := [[5; 6]]; w_rng := [[0%nat]];
     w_log := [EvChoice; EvChoice; EvFromEstimate; EvResiduals] |}.

(** The worlds the runs over [spread_world] end in. *)
Definition picky_final : world R (list (list nat)) :=
  {| w_data := [[0; 6; 12; 13]]; w_rng := [];
     w_log := [EvChoice; EvChoice; EvIsDataValid; EvChoice; EvIsDataValid;
               EvWarn "No inliers found. Model not fitted"] |}.

Definition failing_final : world R (list (list nat)) :=
  {| w_data := [[0; 6; 12; 13]]; w_rng := [];
     w_log := [EvChoice; EvChoice; EvFromEstimate; EvChoice; EvFromEstimate;
               EvWarn "No inliers found. Model not fitted"] |}.

(** ** [add_from_estimate] (fit.py, lines 1127-1162) *)

(** What [cls.from_estimate] is on a class that has the attribute: a bound
    method, as a class method is when read off the class, or anything
    else. *)
Inductive from_estimate_attr (Inst Data : Type) : Type :=
| ClassMethod (f : Data -> estimation Inst FailedEstimation)
| NotAMethod.
Arguments ClassMethod {Inst Data} f.
Arguments NotAMethod {Inst Data}.

(** A class as [add_from_estimate] looks at it: its [__name__], its
    [from_estimate] attribute if it has one, and its [estimate] method if
    it has one.  [estimate] is given as the state of a default instance
    after the call, with the truth value of what the call returned. *)
Record py_class (Inst Data : Type) : Type := {
  cls_name : string;
  cls_from_estimate : option (from_estimate_attr Inst Data);
  cls_estimate : option (Data -> Inst * bool);
}.
Arguments cls_name {Inst Data} _.
Arguments cls_from_estimate {Inst Data} _.
Arguments cls_estimate {Inst Data} _.

(** The class returned, or the [TypeError] raised (its message prints the
    class object and is left out). *)
Inductive add_outcome (Inst Data : Type) : Type :=
| ReturnsClass (c : py_class Inst Data)
| RaisesTypeError.
Arguments ReturnsClass {Inst Data} c.
Arguments RaisesTypeError {Inst Data}.

Definition from_estimate_deprecation : string :=
  "Passing custom classes without `from_estimate` has been deprecated since version 0.26 and will be removed in version 2.2. Add `from_estimate` class method to custom class to avoid this warning.".

(** The outcome, and the warnings issued on the way. *)
Definition add_from_estimate {Inst Data : Type} (cls : py_class Inst Data)
  : add_outcome Inst Data * list string :=
  match cls_from_estimate cls with
  | Some (ClassMethod _) => (ReturnsClass cls, [])
  | Some NotAMethod => (RaisesTypeError, [])
  | None =>
      match cls_estimate cls with
      | None => (RaisesTypeError, [])
      | Some estimate =>
          (ReturnsClass
             {| cls_name := "FromEstimated";
                cls_from_estimate :=
                  Some (ClassMethod
                          (fun args =>
                             let (instance, success) := estimate args in
                             if success then Estimated instance
                             else Failed {| message := "`" ++ cls_name cls
                                                       ++ "` estimation failed" |}));
                cls_estimate := Some estimate |},
           [from_estimate_deprecation])
      end
  end.

(** A class of the old interface: [estimate] only. *)
Definition LegacyLocation : py_class R (list R) :=
  {| cls_name := "LegacyLocation";
     cls_from_estimate := None;
     cls_estimate := Some (fun xs => (mean xs, negb (Nat.eqb (length xs) 0))) |}.

(* ================================================================== *)
(** * Part II: theorems *)
(* ================================================================== *)

(** ** Facts about clamping and logarithms *)

Lemma EPSILON_pos : 0 < _EPSILON.
Proof.
  unfold _EPSILON. apply Rinv_0_lt_compat. apply pow_lt. lra.
Qed.

Lemma EPSILON_small : _EPSILON < / 2.
Proof.
  unfold _EPSILON.
  assert (H : 2 ^ 1 < 2 ^ 52) by (apply Rlt_pow; [lra | lia]).
  assert (H0 : 0 < 2 ^ 52) by (apply pow_lt; lra).
  apply Rinv_lt_contravar; [nra | simpl in H |- *; lra].
Qed.

Lemma clip_bounds x : _EPSILON <= clip x _EPSILON (1 - _EPSILON) <= 1 - _EPSILON.
Proof.
  pose proof EPSILON_pos. pose proof EPSILON_small.
  unfold clip, Rmin, Rmax.
  repeat destruct Rle_dec; lra.
Qed.

Lemma clip_mono x y a b : x <= y -> clip x a b <= clip y a b.
Proof.
  intros Hxy. unfold clip, Rmin, Rmax.
  repeat destruct Rle_dec; lra.
Qed.

Lemma clip_clamp x : clip x _EPSILON (1 - _EPSILON) = clamp_probability x.
Proof.
  pose proof EPSILON_pos. pose proof EPSILON_small.
  unfold clip, clamp_probability, Rmin, Rmax.
  repeat destruct Rle_dec; repeat destruct Rlt_dec; lra.
Qed.

Lemma ln_le_mono x y : 0 < x -> x <= y -> ln x <= ln y.
Proof.
  intros Hx [Hlt | ->]; [left; now apply ln_increasing | right; reflexivity].
Qed.

Lemma ln_neg x : 0 < x -> x < 1 -> ln x < 0.
Proof.
  intros Hx Hx1. rewrite <- ln_1. now apply ln_increasing.
Qed.

Lemma ln_clip_neg x : ln (clip x _EPSILON (1 - _EPSILON)) < 0.
Proof.
  pose proof EPSILON_pos. pose proof (clip_bounds x).
  apply ln_neg; lra.
Qed.

(** A quotient of two negative numbers grows with its denominator. *)
Lemma neg_quotient_mono a d1 d2 : a < 0 -> d2 <= d1 -> d1 < 0 -> a / d2 <= a / d1.
Proof.
  intros Ha Hd Hd1.
  assert (Hd2 : d2 < 0) by lra.
  unfold Rdiv.
  assert (H : / d1 <= / d2).
  { apply Ropp_le_cancel.
    rewrite <- !Rinv_opp.
    apply Rinv_le_contravar; lra. }
  nra.
Qed.

Lemma neg_quotient_pos a d : a < 0 -> d < 0 -> 0 < a / d.
Proof.
  intros Ha Hd. unfold Rdiv.
  assert (/ d < 0) by now apply Rinv_lt_0_compat.
  nra.
Qed.

Lemma Zceil_pos x : 0 < x -> (0 < Zceil x)%Z.
Proof.
  intros Hx. pose proof (Zceil_bound x) as [_ Hb].
  apply lt_IZR. lra.
Qed.

(** ** Boolean comparisons *)

Lemma Rltb_true x y : x < y -> Rltb x y = true.
Proof. intros H. unfold Rltb. destruct Rlt_dec; [reflexivity | contradiction]. Qed.

Lemma Rltb_false x y : y <= x -> Rltb x y = false.
Proof. intros H. unfold Rltb. destruct Rlt_dec; [lra | reflexivity]. Qed.

Lemma Rleb_true x y : x <= y -> Rleb x y = true.
Proof. intros H. unfold Rleb. destruct Rle_dec; [reflexivity | contradiction]. Qed.

Lemma Rleb_false x y : y < x -> Rleb x y = false.
Proof. intros H. unfold Rleb. destruct Rle_dec; [lra | reflexivity]. Qed.

Lemma Rltb_lt x y : Rltb x y = true <-> x < y.
Proof.
  unfold Rltb. destruct Rlt_dec; split; intros H; auto; try discriminate; contradiction.
Qed.

(** ** The adaptive trial bound *)

(** The three branches of [_dynamic_max_trials], as equations. *)
Lemma dynamic_max_trials_zero_probability k N m :
  _dynamic_max_trials k N m 0 = Ok (Fin 0%Z).
Proof.
  unfold _dynamic_max_trials. destruct Req_dec_T; [reflexivity | lra].
Qed.

Lemma dynamic_max_trials_no_inliers N m p :
  p <> 0 -> _dynamic_max_trials 0 N m p = Ok Inf.
Proof.
  intros Hp. unfold _dynamic_max_trials. destruct Req_dec_T; [lra | reflexivity].
Qed.

Lemma dynamic_max_trials_general k N m p :
  p <> 0 -> (0 < k)%nat -> (0 < N)%nat ->
  _dynamic_max_trials k N m p =
    Ok (Fin (Zceil (ln (clip (1 - p) _EPSILON (1 - _EPSILON))
                    / ln (clip (1 - (INR k / INR N) ^ m) _EPSILON (1 - _EPSILON))))).
Proof.
  intros Hp Hk HN. unfold _dynamic_max_trials.
  destruct Req_dec_T; [lra|].
  destruct (Nat.eqb_spec k 0); [lia|].
  destruct (Nat.eqb_spec N 0); [lia|].
  reflexivity.
Qed.

Lemma ratio_pow_mono k1 k2 N m :
  (k1 <= k2)%nat -> (0 < N)%nat ->
  (INR k1 / INR N) ^ m <= (INR k2 / INR N) ^ m.
Proof.
  intros Hk HN.
  assert (0 < INR N) by now apply lt_0_INR.
  assert (0 <= INR k1) by apply pos_INR.
  assert (INR k1 <= INR k2) by now apply le_INR.
  assert (0 < / INR N) by now apply Rinv_0_lt_compat.
  apply pow_incr. unfold Rdiv. split; nra.
Qed.

(** C4: for fixed N (at least one sample), m and p, the trial bound never
    grows when the inlier count grows: for k1 <= k2 both calls return, and
    the bound for k2 is at most the bound for k1. *)
Theorem dynamic_max_trials_monotone (k1 k2 N m : nat) (p : R) :
  (k1 <= k2)%nat -> (0 < N)%nat ->
  exists t1 t2,
    _dynamic_max_trials k1 N m p = Ok t1 /\
    _dynamic_max_trials k2 N m p = Ok t2 /\
    ext_le t2 t1.
Proof.
  intros Hk HN.
  destruct (Req_dec_T p 0) as [-> | Hp].
  - exists (Fin 0%Z), (Fin 0%Z).
    rewrite !dynamic_max_trials_zero_probability. simpl. repeat split; lia.
  - destruct (Nat.eq_dec k1 0) as [-> | Hk1].
    + destruct (Nat.eq_dec k2 0) as [-> | Hk2].
      * exists Inf, Inf. rewrite dynamic_max_trials_no_inliers by assumption.
        simpl. repeat split.
      * eexists Inf, _. rewrite dynamic_max_trials_no_inliers by assumption.
        rewrite dynamic_max_trials_general by (assumption || lia).
        simpl. repeat split.
    + eexists _, _.
      rewrite !dynamic_max_trials_general by (assumption || lia).
      split; [reflexivity | split; [reflexivity |]].
      simpl. apply Zceil_le.
      apply neg_quotient_mono.
      * apply ln_clip_neg.
      * apply ln_le_mono.
        -- pose proof EPSILON_pos.
           pose proof (clip_bounds (1 - (INR k2 / INR N) ^ m)). lra.
        -- apply clip_mono.
           pose proof (ratio_pow_mono k1 k2 N m Hk HN). lra.
      * apply ln_clip_neg.
Qed.

Lemma dynamic_max_trials_monotone_witness :
  exists t1 t2,
    _dynamic_max_trials 3 10 2 (1 / 2) = Ok t1 /\
    _dynamic_max_trials 7 10 2 (1 / 2) = Ok t2 /\
    ext_le t2 t1.
Proof.
  apply (dynamic_max_trials_monotone 3 7 10 2 (1 / 2)); lia.
Defined.

Lemma dynamic_max_trials_exact k N m p :
  _dynamic_max_trials_rounded exact_log_ratio k N m p = _dynamic_max_trials k N m p.
Proof. reflexivity. Qed.

Lemma exact_log_ratio_positive : positive_on_clamped exact_log_ratio.
Proof.
  intros x y Hx Hy. pose proof EPSILON_pos.
  unfold exact_log_ratio. apply neg_quotient_pos; apply ln_neg; lra.
Qed.

(** C5, as the code has it on doubles: the bound is 0 when p = 0; it is
    unbounded when p > 0 and there is no inlier; otherwise (p > 0, some
    inlier, N > 0) it is the ceiling of the quotient of the logarithms of
    1-p and 1-(k/N)^m, each clamped into [eps, 1 - eps], as doubles give
    that quotient: a finite count of at least one trial; that count is the
    ceiling of ln(1-p) / ln(1-(k/N)^m) when logarithms and quotient are
    exact. *)
Theorem dynamic_max_trials_cases (log_ratio : R -> R -> R) (k N m : nat) (p : R) :
  _dynamic_max_trials_rounded log_ratio k N m 0 = Ok (Fin 0%Z) /\
  (0 < p -> _dynamic_max_trials_rounded log_ratio 0 N m p = Ok Inf) /\
  (0 < p -> (0 < k)%nat -> (0 < N)%nat -> positive_on_clamped log_ratio ->
   exists t,
     _dynamic_max_trials_rounded log_ratio k N m p = Ok (Fin t) /\
     t = Zceil (log_ratio (clamp_probability (1 - p))
                          (clamp_probability (1 - (INR k / INR N) ^ m))) /\
     (1 <= t)%Z) /\
  (0 < p -> (0 < k)%nat -> (0 < N)%nat ->
   _dynamic_max_trials_rounded exact_log_ratio k N m p
   = Ok (Fin (spec_trial_bound k N m p))).
Proof.
  assert (Hgen : forall lr, p <> 0 -> (0 < k)%nat -> (0 < N)%nat ->
            _dynamic_max_trials_rounded lr k N m p
            = Ok (Fin (Zceil (lr (clip (1 - p) _EPSILON (1 - _EPSILON))
                                 (clip (1 - (INR k / INR N) ^ m)
                                       _EPSILON (1 - _EPSILON)))))).
  { intros lr Hp Hk HN. unfold _dynamic_max_trials_rounded.
    destruct Req_dec_T; [lra|].
    destruct (Nat.eqb_spec k 0); [lia|].
    destruct (Nat.eqb_spec N 0); [lia|].
    reflexivity. }
  split; [|split; [|split]].
  - unfold _dynamic_max_trials_rounded. destruct Req_dec_T; [reflexivity | lra].
  - intros Hp. unfold _dynamic_max_trials_rounded.
    destruct Req_dec_T; [lra | reflexivity].
  - intros Hp Hk HN Hpos. rewrite Hgen by (assumption || lra).
    eexists. split; [reflexivity|].
    split; [now rewrite <- !clip_clamp|].
    assert (H : (0 < Zceil (log_ratio (clip (1 - p) _EPSILON (1 - _EPSILON))
                                      (clip (1 - (INR k / INR N) ^ m)
                                            _EPSILON (1 - _EPSILON))))%Z)
      by (apply Zceil_pos, Hpos; apply clip_bounds).
    lia.
  - intros Hp Hk HN. rewrite Hgen by (assumption || lra).
    unfold spec_trial_bound, exact_log_ratio. now rewrite <- !clip_clamp.
Qed.

Lemma dynamic_max_trials_cases_witness :
  _dynamic_max_trials_rounded exact_log_ratio 3 10 2 0 = Ok (Fin 0%Z) /\
  _dynamic_max_trials_rounded exact_log_ratio 0 10 2 (1 / 2) = Ok Inf /\
  (exists t,
     _dynamic_max_trials_rounded exact_log_ratio 3 10 2 (1 / 2) = Ok (Fin t) /\
     t = Zceil (exact_log_ratio (clamp_probability (1 - 1 / 2))
                                (clamp_probability (1 - (INR 3 / INR 10) ^ 2))) /\
     (1 <= t)%Z) /\
  _dynamic_max_trials_rounded exact_log_ratio 3 10 2 (1 / 2)
  = Ok (Fin (spec_trial_bound 3 10 2 (1 / 2))).
Proof.
  destruct (dynamic_max_trials_cases exact_log_ratio 3 10 2 (1 / 2))
    as (H0 & Hinf & Hgen & Hexact).
  split; [exact H0|].
  split; [apply Hinf; lra|].
  split; [apply Hgen; [lra | lia | lia | exact exact_log_ratio_positive]|].
  apply Hexact; [lra | lia | lia].
Defined.

Lemma clip_inside x :
  _EPSILON <= x <= 1 - _EPSILON -> clip x _EPSILON (1 - _EPSILON) = x.
Proof.
  intros Hx. unfold clip, Rmin, Rmax. repeat destruct Rle_dec; lra.
Qed.

Lemma EPSILON_below_quarter : _EPSILON < / 4.
Proof.
  unfold _EPSILON.
  replace (/ 4) with (/ 2 ^ 2) by (simpl; field).
  apply Rinv_lt_contravar; [|apply Rlt_pow; [lra | lia]].
  apply Rmult_lt_0_compat; apply pow_lt; lra.
Qed.

(** C5 as stated fails on doubles: for k = 1, N = 2, m = 2 and p = 37/64
    the probabilities are 27/64 and 3/4, the exact quotient of their
    logarithms is 3, and the quotient doubles give is the double after 3:
    the code returns 4 where the formula gives 3. *)
Lemma trial_bound_exceeds_formula :
  _dynamic_max_trials_rounded log_ratio_here 1 2 2 (37 / 64) = Ok (Fin 4%Z) /\
  spec_trial_bound 1 2 2 (37 / 64) = 3%Z.
Proof.
  pose proof EPSILON_pos as Heps. pose proof EPSILON_below_quarter as Hq.
  assert (Hnom : clip (1 - 37 / 64) _EPSILON (1 - _EPSILON) = 27 / 64)
    by (rewrite clip_inside; lra).
  assert (Hden : clip (1 - (INR 1 / INR 2) ^ 2) _EPSILON (1 - _EPSILON) = 3 / 4)
    by (simpl; rewrite clip_inside; lra).
  split.
  - unfold _dynamic_max_trials_rounded.
    destruct Req_dec_T; [lra|]. cbn [Nat.eqb].
    rewrite Hnom, Hden. unfold log_ratio_here.
    destruct (Req_dec_T (27 / 64) (27 / 64)) as [_|E]; [|contradiction].
    destruct (Req_dec_T (3 / 4) (3 / 4)) as [_|E]; [|contradiction].
    do 2 f_equal. apply Zceil_eq. simpl.
    assert (0 < / 2 ^ 51 < 1).
    { split; [apply Rinv_0_lt_compat; lra|].
      rewrite <- Rinv_1. apply Rinv_lt_contravar; lra. }
    lra.
  - unfold spec_trial_bound. rewrite <- !clip_clamp, Hnom, Hden.
    replace (27 / 64) with ((3 / 4) ^ 3) by (simpl; field).
    rewrite ln_pow by lra.
    assert (Hln : ln (3 / 4) < 0) by (apply ln_neg; lra).
    replace (INR 3 * ln (3 / 4) / ln (3 / 4)) with 3 by (simpl; field; lra).
    apply Zceil_eq. simpl. lra.
Qed.

(** ** The estimators on degenerate data *)

Lemma Rsum_repeat c N : Rsum (repeat c N) = INR N * c.
Proof.
  induction N as [|N IH].
  - simpl. lra.
  - change (repeat c (S N)) with (c :: repeat c N).
    unfold Rsum in *. simpl fold_right. rewrite IH, S_INR. lra.
Qed.

Lemma mean_repeat c N : (0 < N)%nat -> mean (repeat c N) = c.
Proof.
  intros HN. unfold mean. rewrite Rsum_repeat, repeat_length.
  assert (0 < INR N) by now apply lt_0_INR.
  field. lra.
Qed.

Lemma column_repeat j (p : list R) N :
  column j (repeat p N) = repeat (nth j p 0) N.
Proof. unfold column. apply (map_repeat _ _ (fun row => nth j row 0)). Qed.

Lemma map_nth_seq (p : list R) :
  map (fun j => nth j p 0) (seq 0 (length p)) = p.
Proof.
  induction p as [|x p IH]; [reflexivity|].
  simpl. f_equal. rewrite <- seq_shift, map_map. exact IH.
Qed.

(** The centroid of N copies of a point is the point, when the mean of
    each column comes out exact. *)
Lemma mean_axis0_repeat np_mean (p : list R) N :
  (forall j, (j < length p)%nat -> mean_exact_on np_mean (nth j p 0) N) ->
  mean_axis0 np_mean {| ncols := length p; rows := repeat p N |} = p.
Proof.
  intros Hex. unfold mean_axis0. cbn [ncols rows].
  transitivity (map (fun j => nth j p 0) (seq 0 (length p)));
    [|apply map_nth_seq].
  apply map_ext_in. intros j Hj. apply in_seq in Hj.
  rewrite column_repeat. apply Hex. lia.
Qed.

Lemma vsub_self (u : list R) : Forall (fun v => v = 0) (vsub u u).
Proof.
  unfold vsub. induction u as [|x u IH]; simpl; constructor; [lra | exact IH].
Qed.

Lemma sub_rows_repeat (p o : list R) N :
  sub_rows (repeat p N) o = repeat (vsub p o) N.
Proof. unfold sub_rows. apply (map_repeat _ _ (fun row => vsub row o)). Qed.

Lemma Rsum_zeros (l : list R) : Forall (fun v => v = 0) l -> Rsum l = 0.
Proof.
  induction 1 as [|x l Hx _ IH]; unfold Rsum in *; simpl; [reflexivity|].
  rewrite IH, Hx. lra.
Qed.

Lemma mean_zeros (l : list R) : Forall (fun v => v = 0) l -> mean l = 0.
Proof.
  intros H. unfold mean. rewrite (Rsum_zeros l H). unfold Rdiv. lra.
Qed.

(** The exact mean is one of the means the estimators allow for. *)
Lemma mean_mean_of_zeros : mean_of_zeros mean.
Proof. intros l _ H. now apply mean_zeros. Qed.

Lemma mean_mean_exact_on c N : (0 < N)%nat -> mean_exact_on mean c N.
Proof. intros HN. now apply mean_repeat. Qed.

Lemma concat_zeros (d : list (list R)) :
  Forall (Forall (fun v => v = 0)) d -> Forall (fun v => v = 0) (concat d).
Proof.
  induction 1 as [|r d Hr _ IH]; simpl; [constructor|].
  apply Forall_app. split; assumption.
Qed.

(** An array of zeros has standard deviation zero. *)
Lemma std_zeros np_mean (d : list (list R)) :
  mean_of_zeros np_mean -> concat d <> [] ->
  Forall (Forall (fun v => v = 0)) d -> std np_mean d = 0.
Proof.
  intros H0 Hne H. apply concat_zeros in H. unfold std.
  rewrite (H0 _ Hne H).
  rewrite H0; [apply sqrt_0 | |].
  - intros E. apply map_eq_nil in E. contradiction.
  - apply Forall_map. eapply Forall_impl; [|exact H].
    intros v ->. simpl. rewrite Rminus_0_r, Rabs_R0. lra.
Qed.

Lemma tiny_pos : 0 < tiny.
Proof. unfold tiny. apply Rinv_0_lt_compat, pow_lt. lra. Qed.

(** Centred copies of one point have standard deviation below [tiny]. *)
Lemma std_identical_points np_mean (p : list R) N :
  mean_of_zeros np_mean -> (0 < N)%nat -> p <> [] ->
  Rltb (std np_mean (sub_rows (repeat p N) p)) tiny = true.
Proof.
  intros H0 HN Hp.
  rewrite sub_rows_repeat, std_zeros.
  - unfold Rltb. destruct Rlt_dec; [reflexivity|]. pose proof tiny_pos. contradiction.
  - exact H0.
  - destruct N as [|N]; [lia|]. destruct p as [|x p]; [contradiction|].
    discriminate.
  - apply Forall_forall. intros r Hr. apply repeat_spec in Hr. subst r.
    apply vsub_self.
Qed.

Lemma zeros_div (l : list R) k :
  Forall (fun v => v = 0) l -> Forall (fun v => v = 0) (map (fun x => x / k) l).
Proof.
  intros H. apply Forall_map. eapply Forall_impl; [|exact H].
  intros v ->. unfold Rdiv. lra.
Qed.




(** ** The ellipse fit: axes and angle *)

Lemma np_pi_bounds : 3 < np_pi < 4.
Proof. unfold np_pi. lra. Qed.

Lemma float_max_large : 1024 <= float_max.
Proof.
  unfold float_max.
  assert (H : 2 ^ 10 <= 2 ^ 1023) by (apply Rle_pow; [lra | lia]).
  assert (H52 : 0 < / 2 ^ 52 < 1).
  { split; [apply Rinv_0_lt_compat; lra|].
    rewrite <- Rinv_1. apply Rinv_lt_contravar; lra. }
  nra.
Qed.

(** The quotient truncated towards zero leaves a remainder smaller than the
    divisor, of the sign of the dividend. *)
Lemma trunc_remainder r k :
  0 < k ->
  let rem := r - k * IZR (trunc (r / k)) in
  - k < rem < k /\ (0 <= r -> 0 <= rem) /\ (r <= 0 -> rem <= 0).
Proof.
  intros Hk. cbv zeta. unfold trunc.
  assert (Hr : r = r / k * k) by (field; lra).
  destruct (Rle_dec 0 (r / k)) as [Hq | Hq].
  - pose proof (Zfloor_bound (r / k)) as [Hlo Hhi].
    assert (H1 : IZR (Zfloor (r / k)) * k <= r / k * k)
      by (apply Rmult_le_compat_r; lra).
    assert (H2 : r / k * k < (IZR (Zfloor (r / k)) + 1) * k)
      by (apply Rmult_lt_compat_r; lra).
    repeat split; try lra.
    intros Hneg. assert (r / k * k <= 0) by lra.
    assert (Hq0 : r / k = 0) by nra.
    rewrite Hq0. replace (Zfloor 0) with 0%Z; [lra|].
    symmetry. apply Zfloor_eq. simpl. lra.
  - pose proof (Zceil_bound (r / k)) as [Hlo Hhi].
    assert (H1 : r / k * k <= IZR (Zceil (r / k)) * k)
      by (apply Rmult_le_compat_r; lra).
    assert (H2 : (IZR (Zceil (r / k)) - 1) * k < r / k * k)
      by (apply Rmult_lt_compat_r; lra).
    repeat split; try lra.
    intros Hpos. exfalso. apply Hq.
    apply Rmult_le_reg_r with k; lra.
Qed.

Section RoundedEllipse.
Variable rnd : R -> R.
Hypothesis rnd_ok : rounding rnd.

Lemma rnd_nonneg x : 0 <= x -> 0 <= rnd x.
Proof.
  intros Hx. destruct rnd_ok as (Hmono & H0 & _).
  rewrite <- H0. now apply Hmono.
Qed.

(** The remainder modulo [np.pi] of any float, once nan is mapped to zero,
    lies in [0, np.pi], the upper end included: [np.pi] added to a negative
    remainder is rounded. *)
Lemma fmod_range (x : fl) : 0 <= nan_to_num (fmod rnd x np_pi) <= np_pi.
Proof.
  pose proof np_pi_bounds as Hpi.
  destruct rnd_ok as (Hmono & H0 & Hp & _).
  destruct x as [r| | |]; simpl; try lra.
  pose proof (trunc_remainder r np_pi ltac:(lra)) as (Hrange & _).
  cbv zeta in Hrange.
  destruct (Rlt_dec (r - np_pi * IZR (trunc (r / np_pi))) 0) as [Hneg | Hpos];
    simpl; [|lra].
  split.
  - rewrite <- H0. apply Hmono. lra.
  - apply Rle_trans with (rnd np_pi); [apply Hmono; lra | rewrite Hp; lra].
Qed.

Lemma fsqrt_axis_value (x : fl) : axis_value (fsqrt rnd x).
Proof.
  destruct rnd_ok as (_ & _ & _ & Hmax).
  destruct x as [r| | |]; simpl; auto.
  destruct (Rlt_dec r 0); simpl; [exact I|].
  split; [apply rnd_nonneg, sqrt_pos | apply Hmax].
Qed.

Lemma nan_to_num_axis_value (x : fl) :
  axis_value x -> 0 <= nan_to_num x <= float_max.
Proof.
  pose proof float_max_large as Hmax.
  destruct x as [r| | |]; simpl; intros Hx; lra.
Qed.

(** The order [width < height] tests, on what [np.sqrt] returns. *)
Lemma flt_order (x y : fl) :
  axis_value x -> axis_value y ->
  (flt x y = true -> nan_to_num x <= nan_to_num y) /\
  (flt x y = false -> nan_to_num y <= nan_to_num x \/ x = NaN).
Proof.
  pose proof float_max_large as Hmax.
  destruct x as [a| | |], y as [b| | |]; simpl; intros Hx Hy;
    try contradiction; (split; [intros Hlt | intros Hge]);
    try discriminate; try lra; auto.
  - apply Rltb_lt in Hlt. lra.
  - left. unfold Rltb in Hge. destruct (Rlt_dec a b); [discriminate | lra].
Qed.

(** Lines 945-963 leave the longer axis first, unless the first axis came
    out as nan: a nan is not swapped, and [nan_to_num] makes it 0. *)
Lemma ellipse_finish_axes (x0 y0 width height phi : fl) scale origin :
  axis_value width -> axis_value height -> 0 <= scale ->
  exists major minor,
    snd (fst (ellipse_finish rnd x0 y0 width height phi scale origin)) = [major; minor] /\
    0 <= minor /\ (minor <= major \/ major = 0).
Proof.
  intros Hw Hh Hs.
  destruct rnd_ok as (Hmono & H0 & _).
  unfold ellipse_finish. cbn [map firstn skipn fst snd].
  pose proof (nan_to_num_axis_value _ Hw) as Hwv.
  pose proof (nan_to_num_axis_value _ Hh) as Hhv.
  destruct (flt_order width height Hw Hh) as [Hlt Hge].
  destruct (flt width height).
  - eexists _, _. split; [reflexivity|].
    split; [apply rnd_nonneg; nra|].
    left. apply Hmono. specialize (Hlt eq_refl). nra.
  - eexists _, _. split; [reflexivity|].
    split; [apply rnd_nonneg; nra|].
    destruct (Hge eq_refl) as [Hle | ->].
    + left. apply Hmono. nra.
    + right. simpl. now rewrite Rmult_0_l.
Qed.

Lemma ellipse_finish_theta (x0 y0 width height phi : fl) scale origin :
  0 <= snd (ellipse_finish rnd x0 y0 width height phi scale origin) <= np_pi.
Proof. unfold ellipse_finish. cbn [snd]. apply fmod_range. Qed.


End RoundedEllipse.

Lemma tiny_le_1 : tiny <= 1.
Proof.
  unfold tiny.
  assert (H : 1 <= 2 ^ 1022) by (apply pow_R1_Rle; lra).
  pose proof (Rinv_le_contravar 1 (2 ^ 1022) ltac:(lra) H) as Hi.
  rewrite Rinv_1 in Hi. exact Hi.
Qed.

(** The six corner points are centred already and have unit spread. *)
Lemma square_scale :
  std mean (sub_rows (rows square_points) (mean_axis0 mean square_points)) = 1.
Proof.
  unfold std, sub_rows, mean_axis0, mean, column, vsub, Rsum, square_points.
  cbn [rows ncols seq map combine concat app fold_right length nth fst snd].
  transitivity (sqrt 1); [|apply sqrt_1].
  f_equal.
  rewrite !pow2_abs. simpl INR. field.
Qed.

(** So are the eight. *)
Lemma corner_scale :
  std mean (sub_rows (rows corner_points) (mean_axis0 mean corner_points)) = 1.
Proof.
  unfold std, sub_rows, mean_axis0, mean, column, vsub, Rsum, corner_points.
  cbn [rows ncols seq map combine concat app fold_right length nth fst snd].
  transitivity (sqrt 1); [|apply sqrt_1].
  f_equal.
  rewrite !pow2_abs. simpl INR. field.
Qed.

Lemma saturate_rounding : rounding saturate.
Proof.
  pose proof float_max_large as Hmax. pose proof np_pi_bounds as Hpi.
  unfold rounding, saturate. repeat split.
  - intros x y Hxy. unfold Rmin. repeat destruct Rle_dec; lra.
  - unfold Rmin. destruct Rle_dec; lra.
  - unfold Rmin. destruct Rle_dec; lra.
  - intros x. apply Rmin_r.
Qed.

Lemma corner_fit :
  exists m,
    EllipseModel_from_estimate mean saturate atan scaled_inv upright_eig corner_points
    = Ok (Estimated m).
Proof.
  unfold EllipseModel_from_estimate, base_from_estimate, EllipseModel__estimate.
  rewrite corner_scale.
  cbn [corner_points ncols rows Nat.eqb negb length Nat.ltb Nat.leb].
  rewrite (Rltb_false 1 tiny) by apply tiny_le_1.
  unfold scaled_inv, upright_eig. cbn [filter].
  rewrite (Rltb_true 0 (4 * 1 * 4 - 0 ^ 2)) by lra.
  cbn [matmul mat_neg transpose3 column map seq concat app].
  eexists. reflexivity.
Qed.


(** *** A run that returns the angle [np.pi] *)

Lemma near_true t x : t - / 2 ^ 53 <= x <= t + / 2 ^ 53 -> near t x = true.
Proof.
  intros [H1 H2]. unfold near. now rewrite !Rleb_true.
Qed.

Lemma near_false t x : x < t - / 2 ^ 53 \/ t + / 2 ^ 53 < x -> near t x = false.
Proof.
  intros [H | H]; unfold near.
  - rewrite Rleb_false by lra. reflexivity.
  - rewrite (Rleb_false x) by lra. apply andb_false_r.
Qed.

Lemma rounded_here_far x :
  x <= -5 \/ -3 <= x <= 3 \/ 4 <= x <= 8 \/ 10 <= x <= 100 \/ 500 <= x ->
  rounded_here x = x.
Proof.
  pose proof np_pi_bounds as Hpi.
  assert (Hd : 0 < / 2 ^ 53 < 1).
  { split; [apply Rinv_0_lt_compat; lra|].
    rewrite <- Rinv_1. apply Rinv_lt_contravar; lra. }
  intros H. unfold rounded_here.
  rewrite !near_false; [reflexivity | | | |];
    unfold np_pi in *; destruct H as [H | [H | [H | [H | H]]]]; lra.
Qed.

Lemma rounded_here_m4 x : -4 - / 2 ^ 53 <= x <= -4 + / 2 ^ 53 -> rounded_here x = -4.
Proof. intros H. unfold rounded_here. now rewrite near_true. Qed.

Lemma rounded_here_9 x : 9 - / 2 ^ 53 <= x <= 9 + / 2 ^ 53 -> rounded_here x = 9.
Proof.
  intros H. unfold rounded_here.
  rewrite near_false by (right; lra). now rewrite near_true.
Qed.

Lemma rounded_here_400 x :
  400 - / 2 ^ 53 <= x <= 400 + / 2 ^ 53 -> rounded_here x = 400.
Proof.
  intros H. unfold rounded_here.
  rewrite !near_false by (right; lra). now rewrite near_true.
Qed.

Lemma rounded_here_np_pi x :
  np_pi - / 2 ^ 53 <= x <= np_pi + / 2 ^ 53 -> rounded_here x = np_pi.
Proof.
  pose proof np_pi_bounds as Hpi.
  assert (Hd : 0 < / 2 ^ 53 < 1).
  { split; [apply Rinv_0_lt_compat; lra|].
    rewrite <- Rinv_1. apply Rinv_lt_contravar; lra. }
  intros H. unfold rounded_here.
  rewrite (near_false (-4)) by (right; lra).
  rewrite (near_false 9) by (left; lra).
  rewrite (near_false 400) by (left; lra).
  now rewrite near_true.
Qed.

Ltac far_side :=
  first [ left; lra
        | right; left; lra
        | right; right; left; lra
        | right; right; right; left; lra
        | right; right; right; right; lra ].

(** Rounds the innermost operation that is left. *)
Ltac round_one :=
  match goal with
  | |- context [rounded_here ?v] =>
      lazymatch v with
      | context [rounded_here _] => fail
      | _ => idtac
      end;
      first [ rewrite (rounded_here_far v) by far_side
            | rewrite (rounded_here_m4 v) by lra
            | rewrite (rounded_here_9 v) by lra
            | rewrite (rounded_here_400 v) by lra
            | rewrite (rounded_here_np_pi v) by (unfold np_pi; lra) ]
  end.

Lemma sqrt_of_square x y : 0 <= y -> x = y * y -> sqrt x = y.
Proof. intros Hy ->. now apply sqrt_square. Qed.

Ltac nonzero_divisors :=
  repeat match goal with
  | |- context [Req_dec_T ?y 0] =>
      destruct (Req_dec_T y 0) as [E|_]; [exfalso; lra|]
  end.

Ltac nonneg_radicands :=
  repeat match goal with
  | |- context [Rlt_dec ?y 0] =>
      destruct (Rlt_dec y 0) as [E|_]; [exfalso; lra|]
  end.

(** A negative quotient above -1 truncates to zero. *)
Lemma trunc_small_negative q : -1 < q < 0 -> trunc q = 0%Z.
Proof.
  intros Hq. unfold trunc. destruct (Rle_dec 0 q) as [H|_]; [lra|].
  apply Zceil_eq. simpl. lra.
Qed.

(** [np.pi] added to a tiny negative angle rounds to [np.pi]. *)
Lemma fmod_tiny_negative r :
  - / 2 ^ 53 <= r < 0 -> fmod rounded_here (Num r) np_pi = Num np_pi.
Proof.
  intros Hr. pose proof np_pi_bounds as Hpi.
  assert (Hd : 0 < / 2 ^ 53 < 1).
  { split; [apply Rinv_0_lt_compat; lra|].
    rewrite <- Rinv_1. apply Rinv_lt_contravar; lra. }
  unfold fmod. rewrite trunc_small_negative.
  - replace (r - np_pi * 0) with r by ring.
    destruct (Rlt_dec r 0) as [_|E]; [|lra].
    f_equal. apply rounded_here_np_pi. lra.
  - assert (Hinv : 0 < / np_pi < 1).
    { split; [apply Rinv_0_lt_compat; lra|].
      rewrite <- Rinv_1. apply Rinv_lt_contravar; lra. }
    unfold Rdiv. nra.
Qed.

(** The conic of the run on [tilted_eig], operation by operation. *)
Lemma tilted_conic :
  ellipse_from_conic rounded_here arctan_here 1 (3 / 2 ^ 60) 4 0 0 (-100) 1 [0; 0]
  = {| ellipse_center := [0; 0]; axis_lengths := [10; 5]; theta := np_pi |}.
Proof.
  unfold ellipse_from_conic.
  repeat round_one.
  rewrite (sqrt_of_square 9 3) by lra.
  repeat round_one.
  replace (- (3)) with (-3) by lra.
  repeat round_one.
  rewrite (Rltb_false 4 1) by lra.
  unfold fdiv, fdiv_signed. nonzero_divisors.
  repeat round_one.
  unfold fsqrt. nonneg_radicands.
  rewrite (sqrt_of_square (2 * 400 / (-4 * (3 - (1 + 4)))) 10) by lra.
  rewrite (sqrt_of_square (2 * 400 / (-4 * (-3 - (1 + 4)))) 5) by lra.
  repeat round_one.
  unfold farctan, arctan_here, fscale.
  destruct Req_dec_T as [_|E]; [|exfalso; apply E; lra].
  repeat round_one.
  unfold ellipse_finish, flt.
  rewrite (Rltb_false 10 5) by lra.
  rewrite fmod_tiny_negative by lra.
  cbn [map firstn skipn nan_to_num vadd combine fst snd].
  repeat round_one.
  f_equal; repeat f_equal; lra.
Qed.

Lemma corner_origin : mean_axis0 mean corner_points = [0; 0].
Proof.
  unfold mean_axis0, mean, column, Rsum, corner_points.
  cbn [rows ncols seq map fold_right length nth].
  simpl INR. repeat f_equal; field.
Qed.


(** *** A conic whose first denominator cancels *)

Lemma rounded_to_one_far x : x <= 0 \/ 3 / 2 <= x -> rounded_to_one x = x.
Proof.
  assert (Hd : 0 < / 2 ^ 53 < / 4).
  { split; [apply Rinv_0_lt_compat; lra|].
    apply Rinv_lt_contravar; lra. }
  intros H. unfold rounded_to_one.
  rewrite near_false; [reflexivity|]. destruct H; lra.
Qed.

Lemma rounded_to_one_tiny x : 0 <= x <= / 2 -> rounded_to_one x = x.
Proof.
  assert (Hd : 0 < / 2 ^ 53 < / 4).
  { split; [apply Rinv_0_lt_compat; lra|].
    apply Rinv_lt_contravar; lra. }
  intros H. unfold rounded_to_one.
  rewrite near_false; [reflexivity|]. lra.
Qed.

Lemma rounded_to_one_near x :
  1 - / 2 ^ 53 <= x <= 1 + / 2 ^ 53 -> rounded_to_one x = 1.
Proof. intros H. unfold rounded_to_one. now rewrite near_true. Qed.

Ltac round_to_one :=
  match goal with
  | |- context [rounded_to_one ?v] =>
      lazymatch v with
      | context [rounded_to_one _] => fail
      | _ => idtac
      end;
      first [ rewrite (rounded_to_one_far v) by (first [left; lra | right; lra])
            | rewrite (rounded_to_one_tiny v) by lra
            | rewrite (rounded_to_one_near v) by lra ]
  end.

(** On doubles the first denominator of the axis lengths can cancel to
    [-0.0]: the width is then the square root of [-inf], a nan that
    [nan_to_num] turns into 0, and the test [width < height] does not swap
    it: the model has a first axis of length 0 and a second of positive
    length. *)
Lemma cancelled_denominator_zero_width :
  ellipse_from_conic rounded_to_one atan 1 0 (/ 2 ^ 60) 0 0 (- (25 * 2 ^ 60)) 1 [0; 0]
  = {| ellipse_center := [0; 0]; axis_lengths := [0; 5 * 2 ^ 30];
       theta := np_pi / 2 |}.
Proof.
  pose proof np_pi_bounds as Hpi.
  assert (Hc : 0 < / 2 ^ 60 < 1).
  { split; [apply Rinv_0_lt_compat; lra|].
    rewrite <- Rinv_1. apply Rinv_lt_contravar; lra. }
  unfold ellipse_from_conic.
  replace (0 / 2) with 0 by lra.
  repeat round_to_one.
  replace (0 ^ 2) with 0 by (simpl; lra).
  replace (1 * / 2 ^ 60 * - (25 * 2 ^ 60)) with (-25) by field.
  rewrite sqrt_1.
  repeat round_to_one.
  replace (- (1)) with (-1) by lra.
  repeat round_to_one.
  rewrite (Rltb_true (/ 2 ^ 60) 1) by lra.
  unfold product_sign.
  rewrite (Rltb_true (0 - 1 * / 2 ^ 60) 0) by lra.
  rewrite (Rltb_false (1 - 1) 0) by lra.
  rewrite (Rltb_true (-1 - 1) 0) by lra.
  cbn [xorb].
  unfold fdiv, fdiv_signed.
  repeat match goal with
  | |- context [Req_dec_T ?y 0] =>
      destruct (Req_dec_T y 0) as [E|E];
      [try (exfalso; lra) | try (exfalso; apply E; lra)]; clear E
  end.
  match goal with
  | |- context [Rltb ?v 0] => rewrite (Rltb_false v 0) by lra
  end.
  cbn [xorb fsqrt].
  replace ((/ 2 ^ 60 * 0 - 0 * 0) / (0 - 1 * / 2 ^ 60)) with 0 by field.
  replace ((1 * 0 - 0 * 0) / (0 - 1 * / 2 ^ 60)) with 0 by field.
  replace (2 * (1 * 0 + / 2 ^ 60 * 0 + - (25 * 2 ^ 60) * 0 - 2 * 0 * 0 * 0 - -25) /
           ((0 - 1 * / 2 ^ 60) * (-1 - 1)))
    with (25 * 2 ^ 60) by field.
  replace (2 * 0 / 1) with 0 by lra.
  repeat round_to_one.
  destruct Rlt_dec as [E|_]; [exfalso; lra|].
  rewrite (sqrt_of_square (25 * 2 ^ 60) (5 * 2 ^ 30)) by (lra || ring).
  repeat round_to_one.
  unfold farctan, fscale, fplus. rewrite atan_0.
  repeat round_to_one.
  assert (Ht : trunc ((1 / 2 * 0 + 1 / 2 * np_pi) / np_pi) = 0%Z).
  { replace ((1 / 2 * 0 + 1 / 2 * np_pi) / np_pi) with (1 / 2) by (field; lra).
    unfold trunc. destruct Rle_dec; [|lra].
    apply Zfloor_eq. simpl. lra. }
  unfold ellipse_finish, flt, fmod. rewrite Ht.
  destruct Rlt_dec as [E|_]; [exfalso; simpl in E; lra|].
  cbn [map firstn skipn nan_to_num vadd combine fst snd].
  repeat round_to_one.
  replace (0 * 1 + 0) with 0 by lra.
  replace (0 * 1) with 0 by lra.
  replace (5 * 2 ^ 30 * 1) with (5 * 2 ^ 30) by lra.
  replace (1 / 2 * 0 + 1 / 2 * np_pi - np_pi * 0) with (np_pi / 2) by lra.
  reflexivity.
Qed.

(** ** The RANSAC engine *)

Ltac inv_pair :=
  repeat match goal with
  | H : (_, _) = (_, _) |- _ => inversion H; subst; clear H
  | H : Returns _ = Returns _ |- _ => inversion H; subst; clear H
  | H : Ok _ = Ok _ |- _ => inversion H; subst; clear H
  end.

(** Runs a monadic computation symbolically, splitting on every test. *)
Ltac run_all :=
  repeat (simpl in *; inv_pair; try discriminate;
          match goal with
          | H : context [match ?x with _ => _ end] |- _ => destruct x eqn:?
          end).

Ltac unfold_engine :=
  unfold ransac, ransac_trials, ransac_sampling, finalize, getattr_model,
    trial, score, select, choice, call_is_data_valid, call_from_estimate,
    call_is_model_valid, call_residuals, update_best, checked_sample,
    inlier_mask, abs_residuals, warn, lift, bind, ret, raise, out_of_fuel,
    get_data, set_data, emit in *.

Lemma py_min_le a b : (py_min a b <= a)%Z.
Proof.
  destruct b as [t|]; unfold py_min; [|lia].
  destruct (Z.ltb_spec t a); lia.
Qed.

Lemma py_min_keep a t : (a <= t)%Z -> py_min a (Fin t) = a.
Proof.
  intros H. unfold py_min. destruct (Z.ltb_spec t a); [lia | reflexivity].
Qed.

(** With [stop_probability = 1] the bound exceeds one trial as long as some
    sample is left outside the consensus set. *)
Lemma bound_at_least_two x :
  _EPSILON < x ->
  (2 <= Zceil (ln (clip (1 - 1) _EPSILON (1 - _EPSILON))
               / ln (clip x _EPSILON (1 - _EPSILON))))%Z.
Proof.
  intros Hx. pose proof EPSILON_pos as Hpos. pose proof EPSILON_small as Hsmall.
  assert (Hn : clip (1 - 1) _EPSILON (1 - _EPSILON) = _EPSILON).
  { unfold clip, Rmin, Rmax. repeat destruct Rle_dec; lra. }
  assert (Hd : _EPSILON < clip x _EPSILON (1 - _EPSILON)).
  { unfold clip, Rmin, Rmax. repeat destruct Rle_dec; lra. }
  rewrite Hn.
  pose proof (ln_clip_neg x) as Hneg.
  pose proof (ln_increasing _ _ Hpos Hd) as Hlt.
  set (d := ln (clip x _EPSILON (1 - _EPSILON))) in *.
  set (n := ln _EPSILON) in *.
  assert (Hq : 1 < n / d).
  { unfold Rdiv. assert (/ d < 0) by now apply Rinv_lt_0_compat.
    assert (d * / d = 1) by (apply Rinv_r; lra). nra. }
  pose proof (Zceil_bound (n / d)) as [_ Hb].
  assert (Hz : 1 < IZR (Zceil (n / d))) by lra.
  apply lt_IZR in Hz. lia.
Qed.

(** Arithmetic on concrete residuals, and the tests that depend on it. *)
Ltac R_arith := unfold mean, dot, Rabs; simpl; repeat destruct Rcase_abs; lra.

Ltac R_decide :=
  repeat match goal with
  | |- context [Rltb ?x ?y] =>
      first [rewrite (Rltb_true x y) by R_arith | rewrite (Rltb_false x y) by R_arith]
  | |- context [Rleb ?x ?y] =>
      first [rewrite (Rleb_true x y) by R_arith | rewrite (Rleb_false x y) by R_arith]
  end.

(** Evaluates the engine on concrete arguments, up to the tests on reals. *)
Ltac run_engine :=
  cbv [ransac ransac_trials ransac_sampling finalize getattr_model validate
       while_loop trial score select choice call_is_data_valid call_from_estimate
       call_is_model_valid call_residuals update_best inlier_mask abs_residuals
       initial_locals warn lift bind ret raise out_of_fuel get_data set_data emit
       improves stops count_nonzero any fixture_args fixture_world];
  simpl.

Section RansacTheorems.
Context {Row Model Fail Obj G : Type}.
Local Open Scope ransac_scope.

Local Abbreviation args := (ransac_args Row Model Fail Obj G).
Local Abbreviation est := (estimation Model Fail).
Local Abbreviation Mon := (M Row G).
Local Abbreviation wld := (world Row G).

(** What one pass of the loop body can do when it returns: the trial
    counter moves on, and either the best-so-far state is untouched, or a
    model estimated from the selected sample takes it over. *)
Lemma trial_inv (a : args) N s (w : wld) s' brk w' :
  trial a N s w = (Returns (s', brk), w') ->
  num_trials s' = (num_trials s + 1)%Z /\
  ((best_inlier_num s' = best_inlier_num s /\
    best_inlier_residuals_sum s' = best_inlier_residuals_sum s /\
    best_inliers s' = best_inliers s /\
    max_trials s' = max_trials s /\ brk = false)
   \/
   (exists selected m bound,
      getitem_all (w_data w) (spl_idxs s) = Ok selected /\
      fst (from_estimate (model_class a) (checked_sample a selected)) = Estimated m /\
      improves (count_nonzero (inlier_mask a m (w_data w)))
               (dot (abs_residuals a m (w_data w)) (abs_residuals a m (w_data w))) s = true /\
      _dynamic_max_trials (count_nonzero (inlier_mask a m (w_data w))) N
        (Z.to_nat (min_samples a)) (stop_probability a) = Ok bound /\
      best_inliers s' = inlier_mask a m (w_data w) /\
      best_inlier_num s' = count_nonzero (inlier_mask a m (w_data w)) /\
      best_inlier_residuals_sum s' =
        Fin (dot (abs_residuals a m (w_data w)) (abs_residuals a m (w_data w))) /\
      max_trials s' = py_min (max_trials s) bound /\
      brk = stops a s')).
Proof.
  unfold_engine.
  intros H. run_all; simpl in *; inv_pair.
  all: split; [reflexivity|].
  all: try (left; repeat split; reflexivity).
  all: right; eexists _, _, _.
  all: repeat match goal with
       | Hv : is_data_valid _ = _ |- _ => rewrite Hv; clear Hv
       end; simpl.
  all: split; [first [eassumption | reflexivity]|].
  all: split; [eassumption|].
  all: match goal with
       | Hr : residuals _ _ _ = _ |- _ => rewrite Hr; simpl
       end.
  all: repeat split; try eassumption; reflexivity.
Qed.

(** A pass of the loop body changes the caller's arrays only through what
    [residuals] leaves in them. *)
Lemma trial_data (a : args) N s (w : wld) o w' :
  residuals_read_only (model_class a) ->
  trial a N s w = (o, w') -> w_data w' = w_data w.
Proof.
  intros Hro. unfold_engine.
  intros H. run_all; simpl in *; inv_pair; try reflexivity.
  all: match goal with
       | Hr : residuals _ ?m ?d = (_, ?d') |- _ =>
           pose proof (Hro m d) as Hd; rewrite Hr in Hd; simpl in Hd; now subst
       end.
Qed.

(** An invariant of the loop body is an invariant of the loop. *)
Lemma while_loop_inv (a : args) N (P : locals -> wld -> Prop) :
  (forall s w s' brk w',
      (num_trials s < max_trials s)%Z -> P s w ->
      trial a N s w = (Returns (s', brk), w') -> P s' w') ->
  forall fuel s w s' w',
    P s w -> while_loop a N fuel s w = (Returns s', w') -> P s' w'.
Proof.
  intros Hstep. induction fuel as [|fuel IH]; intros s w s' w' HP H; simpl in H.
  - destruct (Z.ltb_spec (num_trials s) (max_trials s)).
    + discriminate.
    + unfold ret in H. inv_pair. assumption.
  - destruct (Z.ltb_spec (num_trials s) (max_trials s)) as [Hlt|Hge].
    + unfold bind in H.
      destruct (trial a N s w) as [[[s1 brk]| |] w1] eqn:Ht; try discriminate.
      simpl in H. pose proof (Hstep _ _ _ _ _ Hlt HP Ht) as HP1.
      destruct brk.
      * unfold ret in H. inv_pair. assumption.
      * eapply IH; eassumption.
    + unfold ret in H. inv_pair. assumption.
Qed.

(** The loop never runs out of fuel when given [max_trials - num_trials]
    passes, since [max_trials] only shrinks while [num_trials] grows. *)
Lemma while_loop_fuel (a : args) N fuel s (w : wld) :
  (max_trials s - num_trials s <= Z.of_nat fuel)%Z ->
  fst (while_loop a N fuel s w) <> OutOfFuel.
Proof.
  revert s w. induction fuel as [|fuel IH]; intros s w Hfuel; simpl.
  - destruct (Z.ltb_spec (num_trials s) (max_trials s)); [lia|].
    unfold ret; simpl. discriminate.
  - destruct (Z.ltb_spec (num_trials s) (max_trials s)) as [Hlt|Hge].
    + unfold bind.
      destruct (trial a N s w) as [[[s1 brk]| |] w1] eqn:Ht; simpl.
      * destruct brk; [unfold ret; simpl; discriminate|].
        apply IH.
        pose proof (trial_inv _ _ _ _ _ _ _ Ht) as [Hn Hcases].
        assert (max_trials s1 <= max_trials s)%Z.
        { destruct Hcases as [(_ & _ & _ & -> & _) | (? & ? & ? & _ & _ & _ & _ & _ & _ & _ & -> & _)];
            [lia | apply py_min_le]. }
        lia.
      * discriminate.
      * exfalso. revert Ht. unfold_engine. clear. intros H.
        run_all; simpl in *; inv_pair; discriminate.
    + unfold ret; simpl. discriminate.
Qed.

Lemma py_min_is_min a b :
  py_min a b = match b with
               | Inf => a
               | Fin t => Z.min a t
               end.
Proof.
  destruct b as [t|]; unfold py_min; [|reflexivity].
  destruct (Z.ltb_spec t a); lia.
Qed.

(** A trial that is the new best differs from the best so far in its inlier
    count or in its sum of squared residuals. *)
Lemma improves_changes_best count residuals_sum s :
  improves count residuals_sum s = true ->
  (count, Fin residuals_sum) <> (best_inlier_num s, best_inlier_residuals_sum s).
Proof.
  unfold improves. intros H E. injection E as Hc Hr.
  rewrite <- Hr, Hc in H. simpl in H.
  rewrite Nat.ltb_irrefl, Nat.eqb_refl in H. simpl in H.
  unfold Rltb in H. destruct Rlt_dec; [lra | discriminate].
Qed.

(** C6: a pass of the loop body either leaves the best-so-far state and
    [max_trials] as they were, or it is an improvement: the new inlier count
    and residual sum pass the test for a new best, so they differ from the
    old ones, and [max_trials] is replaced by the smaller of its current
    value and the adaptive bound computed for the new best inlier count
    (left alone when that bound is [np.inf]).  In both cases [max_trials]
    does not increase. *)
Theorem max_trials_only_tightens (a : args) N s (w : wld) s' brk w' :
  trial a N s w = (Returns (s', brk), w') ->
  (max_trials s' <= max_trials s)%Z /\
  ((best_inlier_num s' = best_inlier_num s /\
    best_inlier_residuals_sum s' = best_inlier_residuals_sum s /\
    best_inliers s' = best_inliers s /\
    max_trials s' = max_trials s)
   \/
   (exists residuals_sum bound,
      best_inlier_residuals_sum s' = Fin residuals_sum /\
      improves (best_inlier_num s') residuals_sum s = true /\
      (best_inlier_num s', best_inlier_residuals_sum s')
        <> (best_inlier_num s, best_inlier_residuals_sum s) /\
      _dynamic_max_trials (best_inlier_num s') N
        (Z.to_nat (min_samples a)) (stop_probability a) = Ok bound /\
      max_trials s' = match bound with
                      | Inf => max_trials s
                      | Fin t => Z.min (max_trials s) t
                      end)).
Proof.
  intros H. apply trial_inv in H as [_ [Hsame | Hnew]].
  - destruct Hsame as (Hn & Hr & Hi & Hm & _). split; [lia | left; auto].
  - destruct Hnew as (sel & m & bound & _ & _ & Himp & Hb & _ & Hn & Hr & Hm & _).
    split; [rewrite Hm; apply py_min_le|].
    right. eexists _, bound. rewrite Hn, Hr, Hm.
    split; [reflexivity|]. split; [exact Himp|].
    split; [apply improves_changes_best, Himp|].
    split; [exact Hb | apply py_min_is_min].
Qed.

(** Over the whole loop, and so over the trials of a call, [max_trials]
    ends no larger than it started. *)
Lemma while_loop_max_trials (a : args) N fuel s (w : wld) s' w' :
  while_loop a N fuel s w = (Returns s', w') ->
  (max_trials s' <= max_trials s)%Z.
Proof.
  intros H.
  eapply (while_loop_inv a N (fun t _ => (max_trials t <= max_trials s)%Z));
    [ | | exact H].
  - intros t u t' brk u' _ Hle Ht.
    apply trial_inv in Ht as [_ [Hsame | Hnew]].
    + destruct Hsame as (_ & _ & _ & -> & _). exact Hle.
    + destruct Hnew as (? & ? & bound & _ & _ & _ & _ & _ & _ & _ & -> & _).
      pose proof (py_min_le (max_trials t) bound). lia.
  - simpl. lia.
Qed.

Lemma ransac_trials_max_trials (a : args) (w : wld) s w1 :
  ransac_trials a w = (Returns s, w1) ->
  (max_trials s <= max_trials_arg a)%Z.
Proof.
  unfold ransac_trials, ransac_sampling, bind, get_data, lift, ret, raise.
  destruct (w_data w) as [|d0 rest]; [discriminate|].
  destruct (validate a (length d0)); [|discriminate].
  destruct (initial_inliers a) as [m|].
  - intros H. apply while_loop_max_trials in H. exact H.
  - unfold choice.
    destruct (rng_choice a (w_rng w) (length d0) (Z.to_nat (min_samples a))) as [i g].
    intros H. apply while_loop_max_trials in H. exact H.
Qed.

(** C3, as the code has it: a pass of the loop body that replaces the
    best-so-far state either strictly raises the best inlier count, or keeps
    the count and strictly lowers the recorded sum of squared residuals;
    otherwise count, sum and mask are left as they were. *)
Theorem best_state_improves_lexicographically (a : args) N s (w : wld) s' brk w' :
  trial a N s w = (Returns (s', brk), w') ->
  (best_inlier_num s' = best_inlier_num s /\
   best_inlier_residuals_sum s' = best_inlier_residuals_sum s /\
   best_inliers s' = best_inliers s)
  \/
  (best_inlier_num s < best_inlier_num s')%nat
  \/
  (best_inlier_num s' = best_inlier_num s /\
   exists r', best_inlier_residuals_sum s' = Fin r' /\
              match best_inlier_residuals_sum s with
              | Inf => True
              | Fin r => r' < r
              end).
Proof.
  intros H. apply trial_inv in H as [_ [Hsame | Hnew]].
  - left. tauto.
  - right.
    destruct Hnew as (sel & m & bound & _ & _ & Himp & _ & _ & Hn & Hs & _).
    unfold improves in Himp. rewrite <- Hn in Himp.
    apply orb_true_iff in Himp as [Hgt | Heq].
    + left. now apply Nat.ltb_lt.
    + right. apply andb_true_iff in Heq as [Heq Hlt].
      apply Nat.eqb_eq in Heq. split; [assumption|].
      eexists. split; [eassumption|].
      destruct (best_inlier_residuals_sum s); [|exact I].
      simpl in Hlt. now apply Rltb_lt.
Qed.

(** *** The eager checks *)

Lemma validate_spec (a : args) N :
  (inputs_valid a N -> validate a N = Ok tt) /\
  (~ inputs_valid a N -> exists msg, validate a N = Raise (ValueError msg)).
Proof.
  unfold inputs_valid, validate.
  destruct (Z.ltb_spec 0 (min_samples a));
    destruct (Z.leb_spec (min_samples a) (Z.of_nat N)); simpl;
    try (split; [intros; exfalso; lia | intros; eexists; reflexivity]).
  unfold Rltb, Rleb.
  destruct (Rlt_dec (residual_threshold a) 0);
    [split; [intros; exfalso; lra | intros; eexists; reflexivity]|].
  destruct (Z.ltb_spec (max_trials_arg a) 0);
    [split; [intros; exfalso; lia | intros; eexists; reflexivity]|].
  destruct (Rle_dec 0 (stop_probability a)); simpl;
    [|split; [intros; exfalso; lra | intros; eexists; reflexivity]].
  destruct (Rle_dec (stop_probability a) 1); simpl;
    [|split; [intros; exfalso; lra | intros; eexists; reflexivity]].
  destruct (initial_inliers a) as [m|].
  - destruct (Nat.eqb_spec (length m) N); simpl.
    + split; [reflexivity|]. intros Hn. exfalso. apply Hn.
      repeat split; try lia; try lra. intros m' [= <-]. assumption.
    + split; [|intros; eexists; reflexivity].
      intros (_ & _ & _ & _ & Hlen). exfalso. auto.
  - split; [reflexivity|]. intros Hn. exfalso. apply Hn.
    repeat split; try lia; try lra. discriminate.
Qed.

(** C7: with [N = len(data[0])], arguments that fail one of the checks
    ([min_samples] outside (0, N], a negative [residual_threshold] or
    [max_trials], [stop_probability] outside [0, 1], an initial mask whose
    length is not N) make [ransac] raise a [ValueError] in the world it was
    called in: no draw, no call, no warning has happened.  Arguments that pass
    them all raise nothing there: [ransac] goes on to the first sample
    selection. *)
Theorem ransac_validates_eagerly (a : args) (w : wld) d0 rest :
  w_data w = d0 :: rest ->
  (~ inputs_valid a (length d0) ->
   exists msg,
     validate a (length d0) = Raise (ValueError msg) /\
     ransac a w = (Raises (ValueError msg), w)) /\
  (inputs_valid a (length d0) ->
   validate a (length d0) = Ok tt /\
   ransac a w = bind (ransac_sampling a (length d0)) (finalize a) w).
Proof.
  intros Hd. destruct (validate_spec a (length d0)) as [Hok Hbad].
  split.
  - intros Hn. destruct (Hbad Hn) as [msg Hmsg]. exists msg.
    split; [assumption|].
    unfold ransac, ransac_trials, bind, get_data. rewrite Hd, Hmsg. reflexivity.
  - intros Hv. split; [auto|].
    unfold ransac, ransac_trials, bind, get_data. rewrite Hd, (Hok Hv).
    reflexivity.
Qed.

(** *** The final estimation *)

(** C9: when the trials end with a non-empty consensus set and
    [from_estimate] over it returns a failure object whose ['model'] lookup
    raises an [AttributeError], [ransac] returns that failure object beside
    the winning mask; it raises nothing, and it warns only when
    [is_model_valid] is supplied and rejects the failure object. *)
Theorem ransac_returns_failed_refit (a : args) (w : wld) s w1 data_inliers f :
  ransac_trials a w = (Returns s, w1) ->
  any (best_inliers s) = true ->
  getitem_all (w_data w1) (Mask (best_inliers s)) = Ok data_inliers ->
  fst (from_estimate (model_class a) data_inliers) = Failed f ->
  fail_attr (model_class a) f = AttributeError ->
  exists w2,
    ransac a w = (Returns (REstimation (Failed f), Some (best_inliers s)), w2) /\
    w_data w2 = w_data w1 /\
    w_log w2 =
      w_log w1 ++ EvFromEstimate ::
        match is_model_valid a with
        | None => []
        | Some p =>
            EvIsModelValid ::
            if fst (p (Failed f) (snd (from_estimate (model_class a) data_inliers)))
            then []
            else [EvWarn "Estimated model is not valid. Try increasing max_trials."]
        end.
Proof.
  intros Hrun Hany Hsel Hfail Hattr.
  unfold ransac, bind at 1. rewrite Hrun.
  unfold finalize. rewrite Hany.
  unfold select, call_from_estimate, call_is_model_valid, getattr_model, warn,
    lift, bind, ret, get_data, emit. simpl.
  rewrite Hsel. cbv beta iota. rewrite !Hfail, Hattr.
  destruct (is_model_valid a) as [p|]; cbv beta iota.
  - destruct (fst (p (Failed f) (snd (from_estimate (model_class a) data_inliers))));
      cbn [negb]; cbv beta iota; eexists; (split; [reflexivity|]); cbn [w_data w_log];
      split; try reflexivity; rewrite <- !app_assoc; reflexivity.
  - eexists. split; [reflexivity|]. cbn [w_data w_log]. auto.
Qed.

(** *** The caller's arrays *)

Lemma while_loop_data (a : args) N fuel s (w : wld) o w' :
  residuals_read_only (model_class a) ->
  while_loop a N fuel s w = (o, w') -> w_data w' = w_data w.
Proof.
  intros Hro. revert s w. induction fuel as [|fuel IH]; intros s w H; simpl in H.
  - destruct (num_trials s <? max_trials s)%Z; unfold out_of_fuel, ret in H;
      inv_pair; reflexivity.
  - destruct (num_trials s <? max_trials s)%Z; [|unfold ret in H; inv_pair; reflexivity].
    unfold bind in H.
    destruct (trial a N s w) as [[[s1 brk]| |] w1] eqn:Ht;
      pose proof (trial_data _ _ _ _ _ _ Hro Ht) as Hd; simpl in H.
    + destruct brk.
      * unfold ret in H. inv_pair. assumption.
      * apply IH in H. congruence.
    + inv_pair. assumption.
    + inv_pair. assumption.
Qed.

Lemma ransac_trials_data (a : args) (w : wld) o w' :
  residuals_read_only (model_class a) ->
  ransac_trials a w = (o, w') -> w_data w' = w_data w.
Proof.
  intros Hro. unfold ransac_trials, ransac_sampling, bind, get_data, lift, ret, raise.
  destruct (w_data w) as [|d0 rest] eqn:Hd; intros H; [inv_pair; auto|].
  destruct (validate a (length d0)); [|inv_pair; auto].
  destruct (initial_inliers a) as [m|].
  - apply while_loop_data in H; [|assumption]. congruence.
  - unfold choice in H.
    destruct (rng_choice a (w_rng w) (length d0) (Z.to_nat (min_samples a))) as [i g].
    apply while_loop_data in H; [|assumption]. simpl in H. congruence.
Qed.

Lemma finalize_data (a : args) s (w : wld) o w' :
  finalize a s w = (o, w') -> w_data w' = w_data w.
Proof.
  unfold_engine. intros H. run_all; simpl in *; inv_pair; reflexivity.
Qed.

(** C10, as the code has it: [ransac] hands copies to [from_estimate] and to
    the two predicates, and the caller's arrays themselves to [residuals];
    when [residuals] leaves its arguments as they were, every data array
    holds after the call, however it ends, what it held before. *)
Theorem ransac_leaves_data_unchanged (a : args) (w : wld) o w' :
  residuals_read_only (model_class a) ->
  ransac a w = (o, w') -> w_data w' = w_data w.
Proof.
  intros Hro. unfold ransac, bind.
  destruct (ransac_trials a w) as [[s| |] w1] eqn:Hrun; intros H;
    pose proof (ransac_trials_data _ _ _ _ Hro Hrun) as Hd.
  - apply finalize_data in H. congruence.
  - inv_pair. assumption.
  - inv_pair. assumption.
Qed.

(** *** The inlier mask *)

(** The best mask is empty until a trial takes over, and then it is the
    mask of the model that trial estimated from its sample. *)
Lemma ransac_trials_mask (a : args) (w : wld) s w1 :
  residuals_read_only (model_class a) ->
  ransac_trials a w = (Returns s, w1) ->
  best_inliers s = [] \/
  exists idx selected m,
    getitem_all (w_data w) idx = Ok selected /\
    fst (from_estimate (model_class a) (checked_sample a selected)) = Estimated m /\
    best_inliers s = inlier_mask a m (w_data w).
Proof.
  intros Hro.
  set (P := fun (t : locals) (u : wld) =>
              w_data u = w_data w /\
              (best_inliers t = [] \/
               exists idx selected m,
                 getitem_all (w_data w) idx = Ok selected /\
                 fst (from_estimate (model_class a) (checked_sample a selected)) = Estimated m /\
                 best_inliers t = inlier_mask a m (w_data w))).
  assert (Hstep : forall N t u t' brk u',
             (num_trials t < max_trials t)%Z -> P t u ->
             trial a N t u = (Returns (t', brk), u') -> P t' u').
  { intros N t u t' brk u' _ [Hd HP] Ht. split.
    - rewrite <- Hd. eapply trial_data; eassumption.
    - apply trial_inv in Ht as [_ [Hsame | Hnew]].
      + destruct Hsame as (_ & _ & -> & _). assumption.
      + destruct Hnew as (sel & m & bound & Hsel & Hest & _ & _ & Hmask & _).
        right. exists (spl_idxs t), sel, m. rewrite <- Hd. auto. }
  unfold ransac_trials, ransac_sampling, bind, get_data, lift, ret, raise.
  intros H.
  destruct (w_data w) as [|d0 rest] eqn:Hd in H; [discriminate|].
  destruct (validate a (length d0)); [|discriminate].
  destruct (initial_inliers a) as [m|].
  - eapply (while_loop_inv a (length d0) P (Hstep (length d0))) in H.
    + destruct H as [_ H]. exact H.
    + split; [reflexivity | left; reflexivity].
  - unfold choice in H.
    destruct (rng_choice a (w_rng w) (length d0) (Z.to_nat (min_samples a))) as [i g].
    eapply (while_loop_inv a (length d0) P (Hstep (length d0))) in H.
    + destruct H as [_ H]. exact H.
    + split; [reflexivity | left; reflexivity].
Qed.

(** The mask [ransac] returns is the best mask of the trials. *)
Lemma finalize_mask (a : args) s (w : wld) r mask w' :
  finalize a s w = (Returns (r, Some mask), w') ->
  mask = best_inliers s /\ any (best_inliers s) = true.
Proof.
  unfold_engine. intros H. run_all; simpl in *; inv_pair; auto.
Qed.

(** C2, as the code has it: the mask [ransac] returns classifies the samples
    under the model of the winning trial, the one estimated from that trial's
    sample, and not under the model returned beside it, which is estimated
    anew from the inliers.  For a model class whose [residuals] returns one
    value per sample and leaves the data alone, the mask has length N and
    its entry i is true exactly when the absolute residual of sample i under
    the winning trial's model is below [residual_threshold]. *)
Theorem ransac_mask_is_winning_trial_mask (a : args) (w : wld) r mask w' :
  residuals_read_only (model_class a) ->
  residuals_per_sample (model_class a) ->
  ransac a w = (Returns (r, Some mask), w') ->
  exists idx selected m,
    getitem_all (w_data w) idx = Ok selected /\
    fst (from_estimate (model_class a) (checked_sample a selected)) = Estimated m /\
    length mask = length (hd [] (w_data w)) /\
    forall i, (i < length mask)%nat ->
      (nth i mask false = true <->
       Rabs (nth i (fst (residuals (model_class a) m (w_data w))) 0)
         < residual_threshold a).
Proof.
  intros Hro Hlen. unfold ransac, bind.
  destruct (ransac_trials a w) as [[s| |] w1] eqn:Hrun; try discriminate.
  intros H. apply finalize_mask in H as [-> Hany].
  destruct (ransac_trials_mask _ _ _ _ Hro Hrun) as [Hnil | Hm].
  - rewrite Hnil in Hany. discriminate.
  - destruct Hm as (idx & sel & m & Hsel & Hest & Hmask).
    exists idx, sel, m. split; [assumption|]. split; [assumption|].
    rewrite Hmask. unfold inlier_mask, abs_residuals.
    rewrite !length_map. split; [apply Hlen|].
    intros i Hi.
    set (res := fst (residuals (model_class a) m (w_data w))) in *.
    rewrite (nth_indep _ false (Rltb (Rabs 0) (residual_threshold a)))
      by (rewrite !length_map; exact Hi).
    rewrite (map_nth (fun r0 => Rltb r0 (residual_threshold a)) (map Rabs res) (Rabs 0) i).
    rewrite (map_nth Rabs res 0 i).
    apply Rltb_lt.
Qed.

(** *** Termination *)

(** X24: The fuel [ransac] gives its loop is enough: it never gives up. *)
Lemma ransac_never_out_of_fuel (a : args) (w : wld) :
  fst (ransac a w) <> OutOfFuel.
Proof.
  unfold ransac, bind.
  destruct (ransac_trials a w) as [[s| |] w1] eqn:Hrun; simpl; try discriminate.
  - destruct (finalize a s w1) as [[r| |] w2] eqn:Hf; simpl; try discriminate.
    exfalso. revert Hf. unfold_engine. clear. intros H.
    run_all; simpl in *; inv_pair; discriminate.
  - exfalso. revert Hrun.
    unfold ransac_trials, ransac_sampling, bind, get_data, lift, ret, raise.
    destruct (w_data w) as [|d0 rest]; [discriminate|].
    destruct (validate a (length d0)); [|discriminate].
    assert (Hfuel : forall spl,
               (max_trials (initial_locals a spl) - num_trials (initial_locals a spl)
                <= Z.of_nat (Z.to_nat (max_trials_arg a)))%Z) by (intros; simpl; lia).
    destruct (initial_inliers a) as [m|].
    + intros H. apply (while_loop_fuel a (length d0) _ _ w (Hfuel (Mask m))).
      rewrite H. reflexivity.
    + unfold choice.
      destruct (rng_choice a (w_rng w) (length d0) (Z.to_nat (min_samples a))) as [i g].
      intros H.
      eapply (while_loop_fuel a (length d0) _ _ _ (Hfuel (Indices i))).
      rewrite H. reflexivity.
Qed.

End RansacTheorems.

(** ** Runs of the engine on concrete data *)

Lemma spread_bound_keeps_two (x : R) :
  / 2 <= x ->
  py_min 2 (Fin (Zceil (ln (clip (1 - 1) _EPSILON (1 - _EPSILON))
                        / ln (clip x _EPSILON (1 - _EPSILON))))) = 2%Z.
Proof.
  intros Hx. apply py_min_keep, bound_at_least_two.
  pose proof EPSILON_small. lra.
Qed.

Lemma spread_first_trial :
  trial spread_args 4 spread_s0 spread_entry = (Returns (spread_s1, false), spread_w1).
Proof.
  unfold spread_args, spread_s0, spread_entry, spread_s1, spread_w1.
  run_engine. R_decide. simpl.
  rewrite dynamic_max_trials_general by (lra || lia). simpl.
  R_decide. simpl.
  rewrite spread_bound_keeps_two by lra.
  repeat f_equal. R_arith.
Qed.

Lemma spread_second_trial :
  trial spread_args 4 spread_s1 spread_w1 = (Returns (spread_s2, false), spread_w2).
Proof.
  unfold spread_args, spread_s1, spread_w1, spread_s2, spread_w2.
  run_engine. R_decide. simpl.
  rewrite dynamic_max_trials_general by (lra || lia). simpl.
  R_decide. simpl.
  rewrite spread_bound_keeps_two by lra.
  repeat f_equal. R_arith.
Qed.

Lemma spread_run :
  ransac_trials spread_args spread_world = (Returns spread_s2, spread_w2).
Proof.
  unfold ransac_trials, ransac_sampling, bind at 1. simpl.
  unfold validate. simpl. R_decide. simpl.
  unfold bind, lift, ret. simpl.
  change (initial_locals spread_args (Indices [1%nat])) with spread_s0.
  unfold bind.
  change {| w_data := [[0; 6; 12; 13]]; w_rng := [[2%nat]; [0%nat]];
            w_log := [EvChoice] |} with spread_entry.
  rewrite spread_first_trial. simpl.
  unfold bind. rewrite spread_second_trial. reflexivity.
Qed.

(** C3 as stated fails on this run: the second trial finds two inliers where
    the first found one, takes over the best-so-far state, and raises the
    recorded sum of squared residuals from 121 to 181. *)
Lemma best_residual_sum_can_grow :
  ransac_trials spread_args spread_world = (Returns spread_s2, spread_w2) /\
  trial spread_args 4 spread_s0 spread_entry = (Returns (spread_s1, false), spread_w1) /\
  (num_trials spread_s1 < max_trials spread_s1)%Z /\
  trial spread_args 4 spread_s1 spread_w1 = (Returns (spread_s2, false), spread_w2) /\
  best_inlier_residuals_sum spread_s1 = Fin 121 /\
  best_inlier_residuals_sum spread_s2 = Fin 181 /\
  121 < 181.
Proof.
  split; [exact spread_run|].
  split; [exact spread_first_trial|].
  split; [simpl; lia|].
  split; [exact spread_second_trial|].
  repeat split; lra.
Qed.

Lemma best_state_improves_lexicographically_witness :
  (best_inlier_num spread_s2 = best_inlier_num spread_s1 /\
   best_inlier_residuals_sum spread_s2 = best_inlier_residuals_sum spread_s1 /\
   best_inliers spread_s2 = best_inliers spread_s1)
  \/
  (best_inlier_num spread_s1 < best_inlier_num spread_s2)%nat
  \/
  (best_inlier_num spread_s2 = best_inlier_num spread_s1 /\
   exists r', best_inlier_residuals_sum spread_s2 = Fin r' /\
              match best_inlier_residuals_sum spread_s1 with
              | Inf => True
              | Fin r => r' < r
              end).
Proof.
  exact (best_state_improves_lexicographically spread_args 4 spread_s1 spread_w1
           spread_s2 false spread_w2 spread_second_trial).
Defined.

Lemma ransac_validates_eagerly_witness :
  (exists msg,
     validate refused_args 4 = Raise (ValueError msg) /\
     ransac refused_args spread_world = (Raises (ValueError msg), spread_world)) /\
  (validate spread_args 4 = Ok tt /\
   ransac spread_args spread_world =
     bind (ransac_sampling spread_args 4) (finalize spread_args) spread_world).
Proof.
  split.
  - apply (proj1 (ransac_validates_eagerly refused_args spread_world
                    [0; 6; 12; 13] [] eq_refl)).
    unfold inputs_valid. simpl. lia.
  - apply (proj2 (ransac_validates_eagerly spread_args spread_world
                    [0; 6; 12; 13] [] eq_refl)).
    unfold inputs_valid. simpl.
    repeat split; try lia; try lra. discriminate.
Defined.

Lemma single_run :
  ransac_trials single_args single_world = (Returns single_s1, single_w1).
Proof.
  unfold single_args, single_world, single_s1, single_w1.
  run_engine. R_decide. simpl.
  rewrite dynamic_max_trials_zero_probability. simpl.
  R_decide. simpl. unfold py_min. simpl.
  repeat f_equal. R_arith.
Qed.

Lemma ransac_returns_failed_refit_witness :
  exists w2,
    ransac single_args single_world =
      (Returns (REstimation (Failed "SinglePointModel: estimation failed"%string),
                Some (best_inliers single_s1)), w2) /\
    w_data w2 = w_data single_w1 /\
    w_log w2 =
      w_log single_w1 ++ EvFromEstimate ::
        match is_model_valid single_args with
        | None => []
        | Some p =>
            EvIsModelValid ::
            if fst (p (Failed "SinglePointModel: estimation failed"%string)
                      (snd (from_estimate (model_class single_args) [[0; 1]])))
            then []
            else [EvWarn "Estimated model is not valid. Try increasing max_trials."]
        end.
Proof.
  apply (ransac_returns_failed_refit single_args single_world single_s1 single_w1
           [[0; 1]] "SinglePointModel: estimation failed"%string single_run);
    reflexivity.
Defined.

Lemma LocationModel_read_only : residuals_read_only LocationModel.
Proof. intros m d. reflexivity. Qed.

Lemma LocationModel_per_sample : residuals_per_sample LocationModel.
Proof. intros m d. simpl. apply length_map. Qed.

Lemma drift_run :
  ransac drift_args drift_world =
    (Returns (REstimation (Estimated (mean [0; 19])), Some [true; true; false]),
     drift_final).
Proof.
  unfold drift_args, drift_world, drift_final.
  run_engine. R_decide. simpl.
  rewrite dynamic_max_trials_zero_probability. simpl.
  R_decide. simpl. unfold py_min. simpl.
  reflexivity.
Qed.

(** C2 as stated fails on this run: the trial's model sits at 0 and leaves
    the sample 29 outside the threshold 20, so the returned mask is
    [true; true; false]; the returned model is fitted anew to the two inliers,
    sits at 9.5, and has the sample 29 within the threshold. *)
Lemma returned_model_disagrees_with_mask :
  ransac drift_args drift_world =
    (Returns (REstimation (Estimated (mean [0; 19])), Some [true; true; false]),
     drift_final) /\
  nth 2 [true; true; false] false = false /\
  Rabs (nth 2 (fst (residuals (model_class drift_args) (mean [0; 19])
                      (w_data drift_final))) 0)
    < residual_threshold drift_args.
Proof.
  split; [exact drift_run|]. split; [reflexivity|].
  simpl. R_arith.
Qed.

Lemma ransac_mask_is_winning_trial_mask_witness :
  exists idx selected m,
    getitem_all (w_data drift_world) idx = Ok selected /\
    fst (from_estimate (model_class drift_args) (checked_sample drift_args selected))
      = Estimated m /\
    length [true; true; false] = length (hd [] (w_data drift_world)) /\
    forall i, (i < length [true; true; false])%nat ->
      (nth i [true; true; false] false = true <->
       Rabs (nth i (fst (residuals (model_class drift_args) m (w_data drift_world))) 0)
         < residual_threshold drift_args).
Proof.
  exact (ransac_mask_is_winning_trial_mask drift_args drift_world _ _ _
           LocationModel_read_only LocationModel_per_sample drift_run).
Defined.

Lemma ransac_leaves_data_unchanged_witness :
  w_data drift_final = w_data drift_world.
Proof.
  exact (ransac_leaves_data_unchanged drift_args drift_world _ _
           LocationModel_read_only drift_run).
Defined.

(** C10 as stated fails for a model class whose [residuals] writes into the
    arrays it is given: after the call the caller's array holds the centred
    values [0; 2] where it held [1; 3]. *)
Lemma residuals_can_overwrite_data :
  ransac centring_args centring_world =
    (Returns (REstimation (Estimated (mean [1 - mean [1]])), Some [true; false]),
     centring_final) /\
  w_data centring_world = [[1; 3]] /\
  w_data centring_final = [[0; 2]].
Proof.
  split; [|split; reflexivity].
  unfold centring_args, centring_world, centring_final.
  run_engine. R_decide. simpl.
  rewrite dynamic_max_trials_zero_probability. simpl.
  R_decide. simpl. unfold py_min. simpl.
  repeat f_equal; R_arith.
Qed.

(* ================================================================== *)
(** * Part III: further properties of the code *)
(* ================================================================== *)

(** ** More on the adaptive trial bound *)

Lemma clip_low x : x <= _EPSILON -> clip x _EPSILON (1 - _EPSILON) = _EPSILON.
Proof.
  intros Hx. pose proof EPSILON_pos. pose proof EPSILON_small.
  unfold clip, Rmin, Rmax. repeat destruct Rle_dec; lra.
Qed.

Lemma pow_unit_interval x n : 0 <= x <= 1 -> 0 <= x ^ n <= 1.
Proof.
  intros Hx. induction n as [|n IH]; simpl; [lra | nra].
Qed.

Lemma pow_decreasing x m1 m2 :
  0 <= x <= 1 -> (m1 <= m2)%nat -> x ^ m2 <= x ^ m1.
Proof.
  intros Hx Hm. replace m2 with (m1 + (m2 - m1))%nat by lia.
  rewrite pow_add.
  pose proof (pow_unit_interval x m1 Hx).
  pose proof (pow_unit_interval x (m2 - m1) Hx). nra.
Qed.

(** A quotient with a negative denominator falls when its numerator grows. *)
Lemma quotient_neg_denominator a1 a2 d : a2 <= a1 -> d < 0 -> a1 / d <= a2 / d.
Proof.
  intros Ha Hd. unfold Rdiv.
  assert (/ d < 0) by now apply Rinv_lt_0_compat. nra.
Qed.

(** An inlier ratio of 1. *)
Lemma unit_ratio (N m : nat) : (0 < N)%nat -> (INR N / INR N) ^ m = 1.
Proof.
  intros HN. assert (HNr : 0 < INR N) by now apply lt_0_INR.
  replace (INR N / INR N) with 1 by (field; lra). apply pow1.
Qed.

(** With an inlier ratio of 1 the denominator probability is clamped to
    eps, and the quotient of logarithms lies in (0, 1]. *)
Lemma unit_ratio_quotient (p : R) :
  Zceil (ln (clip (1 - p) _EPSILON (1 - _EPSILON))
         / ln (clip (1 - 1) _EPSILON (1 - _EPSILON))) = 1%Z.
Proof.
  rewrite (clip_low (1 - 1)) by (pose proof EPSILON_pos; lra).
  pose proof EPSILON_pos as Heps.
  pose proof (clip_bounds (1 - p)) as [Hlo Hhi].
  pose proof (ln_clip_neg (1 - p)) as Hneg.
  pose proof (ln_le_mono _ _ Heps Hlo) as Hle.
  set (n := ln (clip (1 - p) _EPSILON (1 - _EPSILON))) in *.
  set (d := ln _EPSILON) in *.
  assert (Hd : d < 0) by lra.
  apply Zceil_eq. simpl.
  assert (Hinv : / d < 0) by now apply Rinv_lt_0_compat.
  assert (Hone : d * / d = 1) by (apply Rinv_r; lra).
  unfold Rdiv. split; nra.
Qed.

(** X1: When every sample is an inlier, one trial is enough whatever the
    (non-zero) confidence asked for. *)
Theorem dynamic_max_trials_all_inliers (N m : nat) (p : R) :
  (0 < N)%nat -> p <> 0 ->
  _dynamic_max_trials N N m p = Ok (Fin 1%Z).
Proof.
  intros HN Hp.
  rewrite dynamic_max_trials_general by assumption.
  rewrite unit_ratio by assumption.
  now rewrite unit_ratio_quotient.
Qed.

Lemma dynamic_max_trials_all_inliers_witness :
  _dynamic_max_trials 7 7 3 (99 / 100) = Ok (Fin 1%Z).
Proof.
  apply (dynamic_max_trials_all_inliers 7 3 (99 / 100)); [lia | lra].
Defined.

(** X2: For fixed counts, asking for more confidence never lowers the bound. *)
Theorem dynamic_max_trials_monotone_in_probability (k N m : nat) (p1 p2 : R) :
  (0 < N)%nat -> 0 <= p1 -> p1 <= p2 ->
  exists t1 t2,
    _dynamic_max_trials k N m p1 = Ok t1 /\
    _dynamic_max_trials k N m p2 = Ok t2 /\
    ext_le t1 t2.
Proof.
  intros HN Hp1 Hp.
  destruct (Req_dec_T p1 0) as [-> | Hp1'].
  - rewrite dynamic_max_trials_zero_probability.
    destruct (Req_dec_T p2 0) as [-> | Hp2'].
    + rewrite dynamic_max_trials_zero_probability.
      eexists _, _. repeat split. simpl. lia.
    + destruct (Nat.eq_dec k 0) as [-> | Hk].
      * rewrite dynamic_max_trials_no_inliers by assumption.
        eexists _, _. repeat split.
      * rewrite dynamic_max_trials_general by (assumption || lia).
        eexists _, _. split; [reflexivity|]. split; [reflexivity|]. simpl.
        apply Z.lt_le_incl, Zceil_pos, neg_quotient_pos; apply ln_clip_neg.
  - assert (Hp2' : p2 <> 0) by lra.
    destruct (Nat.eq_dec k 0) as [-> | Hk].
    + rewrite !dynamic_max_trials_no_inliers by assumption.
      eexists _, _. repeat split.
    + rewrite !dynamic_max_trials_general by (assumption || lia).
      eexists _, _. split; [reflexivity|]. split; [reflexivity|]. simpl.
      apply Zceil_le, quotient_neg_denominator; [|apply ln_clip_neg].
      apply ln_le_mono.
      * pose proof EPSILON_pos. pose proof (clip_bounds (1 - p2)). lra.
      * apply clip_mono. lra.
Qed.

Lemma dynamic_max_trials_monotone_in_probability_witness :
  exists t1 t2,
    _dynamic_max_trials 3 10 2 (1 / 2) = Ok t1 /\
    _dynamic_max_trials 3 10 2 (99 / 100) = Ok t2 /\
    ext_le t1 t2.
Proof.
  apply (dynamic_max_trials_monotone_in_probability 3 10 2 (1 / 2) (99 / 100));
    [lia | lra | lra].
Defined.

(** X3: For a fixed inlier count (at most N) and confidence, larger samples
    never lower the bound. *)
Theorem dynamic_max_trials_monotone_in_min_samples (k N m1 m2 : nat) (p : R) :
  (0 < N)%nat -> (k <= N)%nat -> (m1 <= m2)%nat ->
  exists t1 t2,
    _dynamic_max_trials k N m1 p = Ok t1 /\
    _dynamic_max_trials k N m2 p = Ok t2 /\
    ext_le t1 t2.
Proof.
  intros HN Hk Hm.
  destruct (Req_dec_T p 0) as [-> | Hp].
  - rewrite !dynamic_max_trials_zero_probability.
    eexists _, _. repeat split. simpl. lia.
  - destruct (Nat.eq_dec k 0) as [-> | Hk0].
    + rewrite !dynamic_max_trials_no_inliers by assumption.
      eexists _, _. repeat split.
    + rewrite !dynamic_max_trials_general by (assumption || lia).
      eexists _, _. split; [reflexivity|]. split; [reflexivity|]. simpl.
      apply Zceil_le, neg_quotient_mono; try apply ln_clip_neg.
      apply ln_le_mono.
      * pose proof EPSILON_pos.
        pose proof (clip_bounds (1 - (INR k / INR N) ^ m1)). lra.
      * apply clip_mono.
        assert (HNr : 0 < INR N) by now apply lt_0_INR.
        assert (Hkr : 0 <= INR k) by apply pos_INR.
        assert (HkN : INR k <= INR N) by now apply le_INR.
        assert (Hr : 0 <= INR k / INR N <= 1).
        { assert (0 < / INR N) by now apply Rinv_0_lt_compat.
          assert (INR N * / INR N = 1) by (apply Rinv_r; lra).
          unfold Rdiv. split; nra. }
        pose proof (pow_decreasing _ _ _ Hr Hm). lra.
Qed.

Lemma dynamic_max_trials_monotone_in_min_samples_witness :
  exists t1 t2,
    _dynamic_max_trials 3 10 2 (1 / 2) = Ok t1 /\
    _dynamic_max_trials 3 10 5 (1 / 2) = Ok t2 /\
    ext_le t1 t2.
Proof.
  apply (dynamic_max_trials_monotone_in_min_samples 3 10 2 5 (1 / 2)); lia.
Defined.

(** X4: With a probability other than zero and at least one inlier, the bound
    is a finite count of at least one trial: the clamping keeps both
    logarithms negative, as the comment in the code says. *)
Theorem dynamic_max_trials_at_least_one (k N m : nat) (p : R) :
  p <> 0 -> (0 < k)%nat -> (0 < N)%nat ->
  exists t, _dynamic_max_trials k N m p = Ok (Fin t) /\ (1 <= t)%Z.
Proof.
  intros Hp Hk HN.
  rewrite dynamic_max_trials_general by assumption.
  eexists. split; [reflexivity|].
  assert (H : (0 < Zceil (ln (clip (1 - p) _EPSILON (1 - _EPSILON))
                          / ln (clip (1 - (INR k / INR N) ^ m) _EPSILON (1 - _EPSILON))))%Z)
    by (apply Zceil_pos, neg_quotient_pos; apply ln_clip_neg).
  lia.
Qed.

Lemma dynamic_max_trials_at_least_one_witness :
  exists t, _dynamic_max_trials 3 10 2 (1 / 2) = Ok (Fin t) /\ (1 <= t)%Z.
Proof.
  apply (dynamic_max_trials_at_least_one 3 10 2 (1 / 2)); [lra | lia | lia].
Defined.

(** ** Circles *)

(** X11: [_params2init_values] gives back the centre and the radius of a circle
    from its [params], when the centre has two coordinates. *)
Theorem circle_params_round_trip (self : CircleModel) :
  length (circle_center self) = 2%nat ->
  CircleModel__params2init_values (CircleModel_params self)
  = Ok (circle_center self, radius self).
Proof.
  intros Hc. unfold CircleModel__params2init_values, CircleModel_params,
    CircleModel__check_init_values.
  destruct (circle_center self) as [|xc [|yc [|z c]]]; try discriminate.
  reflexivity.
Qed.

Lemma circle_params_round_trip_witness :
  CircleModel__params2init_values (CircleModel_params unit_circle_at_2_3)
  = Ok (circle_center unit_circle_at_2_3, radius unit_circle_at_2_3).
Proof.
  apply (circle_params_round_trip unit_circle_at_2_3). reflexivity.
Defined.

Lemma std_nonneg np_mean (d : list (list R)) : 0 <= std np_mean d.
Proof. unfold std. apply sqrt_pos. Qed.

(** X12: A circle that [from_estimate] fits has a radius that is not negative,
    whatever [np.mean] and [lstsq] return. *)
Theorem circle_fit_radius_nonneg
    (np_mean : list R -> R)
    (lstsq : list (list R) -> list R -> list R * nat) (data : ndarray) (m : CircleModel) :
  CircleModel_from_estimate np_mean lstsq data = Ok (Estimated m) ->
  0 <= radius m.
Proof.
  unfold CircleModel_from_estimate, base_from_estimate, CircleModel__estimate.
  destruct (negb (ncols data =? 2)%nat); [discriminate|].
  destruct (scale_too_small _ _); [discriminate|].
  destruct (lstsq _ _) as [C rank].
  destruct (negb (rank =? 3)%nat); [discriminate|].
  intros H. injection H as <-. cbn [radius].
  apply Rmult_le_pos; [apply sqrt_pos | apply std_nonneg].
Qed.

Lemma square_circle_fit :
  exists m, CircleModel_from_estimate mean square_lstsq square_points = Ok (Estimated m).
Proof.
  unfold CircleModel_from_estimate, base_from_estimate, CircleModel__estimate.
  rewrite square_scale.
  cbn [square_points ncols rows Nat.eqb negb sub_rows map scale_too_small].
  rewrite (Rltb_false 1 tiny) by apply tiny_le_1.
  unfold square_lstsq. cbn [Nat.eqb negb].
  eexists. reflexivity.
Qed.

Lemma circle_fit_radius_nonneg_witness :
  exists m,
    CircleModel_from_estimate mean square_lstsq square_points = Ok (Estimated m) /\
    0 <= radius m.
Proof.
  destruct square_circle_fit as [m Hm]. exists m.
  split; [exact Hm|].
  exact (circle_fit_radius_nonneg mean square_lstsq square_points m Hm).
Defined.

(** ** Ellipses *)

Lemma pow2_zero (x : R) : x ^ 2 = 0 -> x = 0.
Proof.
  intros H. simpl in H. rewrite Rmult_1_r in H.
  destruct (Rmult_integral _ _ H); assumption.
Qed.



(** X16: [_params2init_values] gives back centre, axis lengths and angle of an
    ellipse from its [params], when centre and axis lengths have two
    entries each. *)
Theorem ellipse_params_round_trip (self : EllipseModel) :
  length (ellipse_center self) = 2%nat ->
  length (axis_lengths self) = 2%nat ->
  EllipseModel__params2init_values (EllipseModel_params self)
  = Ok (ellipse_center self, axis_lengths self, theta self).
Proof.
  intros Hc Hax. unfold EllipseModel__params2init_values, EllipseModel_params,
    EllipseModel__check_init_values.
  destruct (ellipse_center self) as [|xc [|yc [|z c]]]; try discriminate.
  destruct (axis_lengths self) as [|a [|b [|z l]]]; try discriminate.
  reflexivity.
Qed.

Lemma ellipse_params_round_trip_witness :
  EllipseModel__params2init_values (EllipseModel_params flat_ellipse)
  = Ok (ellipse_center flat_ellipse, axis_lengths flat_ellipse, theta flat_ellipse).
Proof.
  apply (ellipse_params_round_trip flat_ellipse); reflexivity.
Defined.

(** ** More on the RANSAC engine *)

Lemma count_events_app (p : event -> bool) (l1 l2 : list event) :
  count_events p (l1 ++ l2) = (count_events p l1 + count_events p l2)%nat.
Proof. unfold count_events. now rewrite filter_app, length_app. Qed.

(** The trace after a step is the trace before it, followed by the events
    of the step. *)
Ltac log_suffix :=
  first [ exists (@nil event); split; [now rewrite app_nil_r|]
        | rewrite <- ?app_assoc; eexists; split; [reflexivity|] ].

Section RansacFurther.
Context {Row Model Fail Obj G : Type}.
Local Open Scope ransac_scope.

Local Abbreviation args := (ransac_args Row Model Fail Obj G).
Local Abbreviation est := (estimation Model Fail).
Local Abbreviation wld := (world Row G).

(** What a pass of the loop body that returns adds to the trace: one draw,
    at most one fit, and a call of [residuals] only after a fit. *)
Lemma trial_log (a : args) N s (w : wld) r w' :
  trial a N s w = (Returns r, w') ->
  exists new,
    w_log w' = w_log w ++ new /\
    count_events is_choice new = 1%nat /\
    (count_events is_from_estimate new <= 1)%nat /\
    (count_events is_residuals new <= count_events is_from_estimate new)%nat.
Proof.
  unfold_engine. intros H.
  destruct (rng_choice a (w_rng w) N (Z.to_nat (min_samples a))) as [i g] eqn:Hg.
  run_all; simpl in *; inv_pair.
  all: rewrite <- ?app_assoc; eexists; split; [reflexivity|].
  all: cbv [count_events filter app length is_choice is_from_estimate is_residuals]; lia.
Qed.

(** An invariant of the world that every pass of the loop body keeps,
    however it ends, is kept by the loop. *)
Lemma while_loop_world_inv (a : args) N (P : wld -> Prop) :
  (forall s w o w', P w -> trial a N s w = (o, w') -> P w') ->
  forall fuel s w o w',
    P w -> while_loop a N fuel s w = (o, w') -> P w'.
Proof.
  intros Hstep. induction fuel as [|fuel IH]; intros s w o w' HP H; simpl in H.
  - destruct (num_trials s <? max_trials s)%Z;
      unfold ret, out_of_fuel in H; inv_pair; assumption.
  - destruct (num_trials s <? max_trials s)%Z.
    + unfold bind in H.
      destruct (trial a N s w) as [[[s1 brk]| |] w1] eqn:Ht.
      * pose proof (Hstep _ _ _ _ HP Ht) as HP1. simpl in H.
        destruct brk; [unfold ret in H; inv_pair; assumption|].
        eapply IH; eassumption.
      * pose proof (Hstep _ _ _ _ HP Ht). inv_pair. assumption.
      * pose proof (Hstep _ _ _ _ HP Ht). inv_pair. assumption.
    + unfold ret in H. inv_pair. assumption.
Qed.

Lemma validate_max_trials (a : args) N :
  validate a N = Ok tt -> (0 <= max_trials_arg a)%Z.
Proof.
  unfold validate.
  destruct (negb _); [discriminate|].
  destruct (Rltb _ _); [discriminate|].
  destruct (Z.ltb_spec (max_trials_arg a) 0); [discriminate|].
  intros _. assumption.
Qed.

(** Over the loop: the trial counter stays below the bound the loop started
    with, every pass draws once, fits at most once, and calls [residuals]
    only after a fit. *)
Lemma while_loop_counts (a : args) N B fuel s (w : wld) s' w' :
  (max_trials s <= B)%Z -> (num_trials s <= B)%Z ->
  while_loop a N fuel s w = (Returns s', w') ->
  (num_trials s <= num_trials s' <= B)%Z /\
  exists new,
    w_log w' = w_log w ++ new /\
    Z.of_nat (count_events is_choice new) = (num_trials s' - num_trials s)%Z /\
    (Z.of_nat (count_events is_from_estimate new) <= num_trials s' - num_trials s)%Z /\
    (count_events is_residuals new <= count_events is_from_estimate new)%nat.
Proof.
  intros Hmax Hnum H.
  set (P := fun (t : locals) (u : wld) =>
              (max_trials t <= B)%Z /\
              (num_trials s <= num_trials t <= B)%Z /\
              exists new,
                w_log u = w_log w ++ new /\
                Z.of_nat (count_events is_choice new) = (num_trials t - num_trials s)%Z /\
                (Z.of_nat (count_events is_from_estimate new)
                 <= num_trials t - num_trials s)%Z /\
                (count_events is_residuals new <= count_events is_from_estimate new)%nat).
  assert (HP : P s' w').
  { eapply (while_loop_inv a N P); [ | | exact H].
    - intros t u t' brk u' Hlt (Hm & Hn & new & Hlog & Hc & Hf & Hr) Ht.
      destruct (trial_log _ _ _ _ _ _ Ht) as (ev & Hlog' & Hc' & Hf' & Hr').
      apply trial_inv in Ht as [Hnum' Hcases].
      assert (Hm' : (max_trials t' <= max_trials t)%Z).
      { destruct Hcases as [(_ & _ & _ & -> & _)
                           | (? & ? & bound & _ & _ & _ & _ & _ & _ & _ & -> & _)];
          [lia | apply py_min_le]. }
      split; [lia|]. split; [lia|].
      exists (new ++ ev). rewrite Hlog', Hlog, <- app_assoc.
      split; [reflexivity|]. rewrite !count_events_app. lia.
    - split; [assumption|]. split; [lia|].
      exists []. rewrite app_nil_r. split; [reflexivity|].
      cbv [count_events filter length]. lia. }
  destruct HP as (_ & Hn & Hnew). split; assumption.
Qed.

(** X17: The trials of a call: there are at most [max_trials] of them; the
    generator is drawn from once per trial, and once more before the first
    trial unless [initial_inliers] is given, so that the last draw is never
    used; [from_estimate] is called at most once per trial, and
    [residuals] at most as often as [from_estimate]. *)
Theorem ransac_trial_count (a : args) (w : wld) s w1 :
  ransac_trials a w = (Returns s, w1) ->
  (0 <= num_trials s <= max_trials_arg a)%Z /\
  exists new,
    w_log w1 = w_log w ++ new /\
    Z.of_nat (count_events is_choice new)
      = (num_trials s + match initial_inliers a with Some _ => 0 | None => 1 end)%Z /\
    (Z.of_nat (count_events is_from_estimate new) <= num_trials s)%Z /\
    (count_events is_residuals new <= count_events is_from_estimate new)%nat.
Proof.
  unfold ransac_trials, ransac_sampling, bind, get_data, lift, ret, raise.
  destruct (w_data w) as [|d0 rest]; [discriminate|].
  destruct (validate a (length d0)) as [[]|] eqn:Hv; [|discriminate].
  apply validate_max_trials in Hv.
  destruct (initial_inliers a) as [m|].
  - intros H.
    apply (while_loop_counts a _ (max_trials_arg a)) in H; simpl; try lia.
    simpl in H. destruct H as (Hn & new & Hlog & Hc & Hf & Hr).
    split; [lia|]. exists new. repeat split; try assumption; lia.
  - unfold choice.
    destruct (rng_choice a (w_rng w) (length d0) (Z.to_nat (min_samples a))) as [i g].
    intros H.
    apply (while_loop_counts a _ (max_trials_arg a)) in H; simpl; try lia.
    simpl in H. destruct H as (Hn & new & Hlog & Hc & Hf & Hr).
    split; [lia|]. exists (EvChoice :: new).
    split; [rewrite Hlog, <- app_assoc; reflexivity|].
    change (EvChoice :: new) with ([EvChoice] ++ new).
    rewrite !count_events_app.
    cbv [count_events filter length is_choice is_from_estimate is_residuals] in *.
    repeat split; lia.
Qed.

(** *** Runs in which no trial takes over *)

(** A pass of the loop body under an [is_data_valid] that refuses every
    sample: no fit, and the best-so-far state is left alone. *)
Lemma trial_rejecting (a : args) f N s (w : wld) o w' :
  is_data_valid a = Some f ->
  (forall xs, fst (f xs) = false) ->
  trial a N s w = (o, w') ->
  (exists new, w_log w' = w_log w ++ new /\
               count_events is_from_estimate new = 0%nat) /\
  (forall s' brk, o = Returns (s', brk) ->
                  best_inliers s' = best_inliers s /\ brk = false).
Proof.
  intros Hdv Hrej. unfold_engine. rewrite Hdv. intros H.
  destruct (rng_choice a (w_rng w) N (Z.to_nat (min_samples a))) as [i g] eqn:Hg.
  run_all; simpl in *; inv_pair.
  all: try (rewrite Hrej in *; simpl in *; discriminate).
  all: split; [log_suffix; cbv [count_events filter app length is_from_estimate]; lia|].
  all: intros s' brk Ho; inversion Ho; subst; auto.
Qed.

(** The same when every fit fails: [residuals] is not called. *)
Lemma trial_failing (a : args) N s (w : wld) o w' :
  (forall xs, exists fl, fst (from_estimate (model_class a) xs) = Failed fl) ->
  trial a N s w = (o, w') ->
  (exists new, w_log w' = w_log w ++ new /\
               count_events is_residuals new = 0%nat) /\
  (forall s' brk, o = Returns (s', brk) ->
                  best_inliers s' = best_inliers s /\ brk = false).
Proof.
  intros Hfail. unfold_engine. intros H.
  destruct (rng_choice a (w_rng w) N (Z.to_nat (min_samples a))) as [i g] eqn:Hg.
  run_all; simpl in *; inv_pair.
  all: try match goal with
       | Hm : fst (from_estimate _ ?X) = Estimated _ |- _ =>
           destruct (Hfail X) as [fl Hfl]; congruence
       end.
  all: split; [log_suffix; cbv [count_events filter app length is_residuals]; lia|].
  all: intros s' brk Ho; inversion Ho; subst; auto.
Qed.

Section Barren.
(** A kind of event [p] that no pass of the loop body emits, in a run whose
    passes all leave the best-so-far state alone. *)
Variable a : args.
Variable p : event -> bool.
Hypothesis p_choice : p EvChoice = false.
Hypothesis p_warn : forall msg, p (EvWarn msg) = false.
Hypothesis barren_trial :
  forall N s (w : wld) o w',
    trial a N s w = (o, w') ->
    (exists new, w_log w' = w_log w ++ new /\ count_events p new = 0%nat) /\
    (forall s' brk, o = Returns (s', brk) ->
                    best_inliers s' = best_inliers s /\ brk = false).

Lemma barren_loop N fuel s (w : wld) o w' :
  while_loop a N fuel s w = (o, w') ->
  (exists new, w_log w' = w_log w ++ new /\ count_events p new = 0%nat) /\
  (forall s', o = Returns s' -> best_inliers s' = best_inliers s).
Proof.
  revert s w. induction fuel as [|fuel IH]; intros s w H; simpl in H.
  - destruct (num_trials s <? max_trials s)%Z;
      unfold ret, out_of_fuel in H; inv_pair;
      (split; [exists []; now rewrite app_nil_r|]);
      intros s' Ho; inversion Ho; subst; reflexivity.
  - destruct (num_trials s <? max_trials s)%Z.
    + unfold bind in H.
      destruct (trial a N s w) as [[[s1 brk]| |] w1] eqn:Ht;
        destruct (barren_trial _ _ _ _ _ Ht) as [(ev & Hlog & Hev) Hbest].
      * destruct (Hbest s1 brk eq_refl) as [Hb ->]. simpl in H.
        apply IH in H as [(new & Hlog' & Hnew) Hbest'].
        split.
        -- exists (ev ++ new). rewrite Hlog', Hlog, <- app_assoc.
           split; [reflexivity|]. rewrite count_events_app. lia.
        -- intros s' Ho. rewrite (Hbest' s' Ho). exact Hb.
      * inv_pair. split; [eauto|]. intros s' Ho. discriminate.
      * inv_pair. split; [eauto|]. intros s' Ho. discriminate.
    + unfold ret in H. inv_pair.
      split; [exists []; now rewrite app_nil_r|].
      intros s' Ho; inversion Ho; subst; reflexivity.
Qed.

Lemma barren_run (w : wld) o w' :
  ransac a w = (o, w') ->
  (exists new, w_log w' = w_log w ++ new /\ count_events p new = 0%nat) /\
  (forall r, o = Returns r -> r = (RNone, None)).
Proof.
  assert (Hfin : forall s (u : wld) o' u',
             best_inliers s = [] -> finalize a s u = (o', u') ->
             (exists new, w_log u' = w_log u ++ new /\ count_events p new = 0%nat) /\
             o' = Returns (RNone, None)).
  { intros s u o' u' Hb. unfold finalize. rewrite Hb. simpl.
    unfold warn, emit, bind, ret. intros H. inv_pair. simpl.
    split; [|reflexivity]. eexists. split; [reflexivity|].
    cbv [count_events filter length]. now rewrite p_warn. }
  assert (Htrials : forall o1 w1,
             ransac_trials a w = (o1, w1) ->
             (exists new, w_log w1 = w_log w ++ new /\ count_events p new = 0%nat) /\
             (forall s, o1 = Returns s -> best_inliers s = [])).
  { intros o1 w1.
    unfold ransac_trials, ransac_sampling, bind, get_data, lift, ret, raise.
    destruct (w_data w) as [|d0 rest].
    { intros H. inv_pair.
      split; [exists []; now rewrite app_nil_r | discriminate]. }
    destruct (validate a (length d0)) as [[]|e].
    2:{ intros H. inv_pair.
        split; [exists []; now rewrite app_nil_r | discriminate]. }
    destruct (initial_inliers a) as [m|].
    - intros H. apply barren_loop in H as [Hlog Hbest].
      split; [exact Hlog|]. intros s Ho. now rewrite (Hbest s Ho).
    - unfold choice.
      destruct (rng_choice a (w_rng w) (length d0) (Z.to_nat (min_samples a))) as [i g].
      intros H. apply barren_loop in H as [(new & Hlog & Hnew) Hbest].
      simpl in Hlog. split; [|intros s Ho; now rewrite (Hbest s Ho)].
      exists ([EvChoice] ++ new). rewrite Hlog, <- app_assoc.
      split; [reflexivity|]. rewrite count_events_app.
      cbv [count_events filter length] in *. rewrite p_choice. simpl. lia. }
  unfold ransac, bind.
  destruct (ransac_trials a w) as [[s1| |] w1] eqn:Hrun;
    destruct (Htrials _ _ eq_refl) as [(ev & Hlog & Hev) Hbest]; intros H.
  - apply Hfin in H as [(new & Hlog' & Hnew) ->]; [|now apply Hbest].
    split; [|intros r Hr; now inversion Hr].
    exists (ev ++ new). rewrite Hlog', Hlog, <- app_assoc.
    split; [reflexivity|]. rewrite count_events_app. lia.
  - inv_pair. split; [eauto|]. discriminate.
  - inv_pair. split; [eauto|]. discriminate.
Qed.

End Barren.

(** X18: Under an [is_data_valid] that refuses every sample, a call of [ransac]
    never calls [from_estimate], however it ends, and when it returns, it
    returns no model and no mask. *)
Theorem ransac_rejected_samples_never_fit (a : args) f (w : wld) o w' :
  is_data_valid a = Some f ->
  (forall xs, fst (f xs) = false) ->
  ransac a w = (o, w') ->
  (exists new, w_log w' = w_log w ++ new /\
               count_events is_from_estimate new = 0%nat) /\
  (forall r, o = Returns r -> r = (RNone, None)).
Proof.
  intros Hdv Hrej. apply barren_run; try reflexivity.
  intros N s u o' u'. now apply (trial_rejecting a f).
Qed.

(** X19: With a model class whose fit fails on every sample, a call of [ransac]
    never calls [residuals], and when it returns, it returns no model and
    no mask. *)
Theorem ransac_failed_fits_never_scored (a : args) (w : wld) o w' :
  (forall xs, exists fl, fst (from_estimate (model_class a) xs) = Failed fl) ->
  ransac a w = (o, w') ->
  (exists new, w_log w' = w_log w ++ new /\
               count_events is_residuals new = 0%nat) /\
  (forall r, o = Returns r -> r = (RNone, None)).
Proof.
  intros Hfail. apply barren_run; try reflexivity.
  intros N s u o' u'. now apply trial_failing.
Qed.

(** *** Edges of the loop *)

(** X20: With [max_trials = 0] the loop body never runs: [ransac] draws once
    from the generator unless [initial_inliers] is given, warns that no
    inliers were found, leaves the data alone, and returns no model and no
    mask. *)
Theorem ransac_without_trials (a : args) (w : wld) d0 rest :
  w_data w = d0 :: rest ->
  validate a (length d0) = Ok tt ->
  max_trials_arg a = 0%Z ->
  exists g,
    ransac a w
    = (Returns (RNone, None),
       {| w_data := w_data w;
          w_rng := g;
          w_log := w_log w
                   ++ match initial_inliers a with
                      | Some _ => []
                      | None => [EvChoice]
                      end
                   ++ [EvWarn "No inliers found. Model not fitted"] |}).
Proof.
  intros Hd Hv Hmax.
  unfold ransac, ransac_trials, ransac_sampling, bind, get_data, lift, ret.
  rewrite Hd, Hv, Hmax.
  destruct (initial_inliers a) as [m|].
  - simpl. rewrite Hmax. simpl. unfold ret, finalize. simpl.
    unfold bind, warn, emit, ret. simpl. rewrite <- Hd. eexists. reflexivity.
  - unfold choice.
    destruct (rng_choice a (w_rng w) (length d0) (Z.to_nat (min_samples a))) as [i g].
    simpl. rewrite Hmax. simpl. unfold ret, finalize. simpl.
    unfold bind, warn, emit, ret. simpl. rewrite <- Hd, <- app_assoc.
    eexists. reflexivity.
Qed.

Lemma count_nonzero_any (l : list bool) :
  any l = true <-> (0 < count_nonzero l)%nat.
Proof.
  unfold any, count_nonzero.
  induction l as [|b l IH]; simpl; [split; [discriminate | lia]|].
  destruct b; simpl; [split; [lia | reflexivity] | exact IH].
Qed.

(** X21: The mask [ransac] returns is never without an inlier: when the best
    trial has none, the mask and the model are both [None]; otherwise the
    mask has an inlier. *)
Theorem ransac_mask_none_or_has_inlier (a : args) (w : wld) r mask w' :
  ransac a w = (Returns (r, mask), w') ->
  (mask = None /\ r = RNone) \/
  (exists m, mask = Some m /\ (0 < count_nonzero m)%nat).
Proof.
  unfold ransac, bind.
  destruct (ransac_trials a w) as [[s| |] w1]; try discriminate.
  unfold finalize.
  destruct (any (best_inliers s)) eqn:Hany.
  - intros H. right. exists (best_inliers s).
    apply count_nonzero_any in Hany.
    revert H. unfold_engine. intros H.
    run_all; simpl in *; inv_pair; (split; [reflexivity | assumption]).
  - unfold warn, emit, bind, ret. intros H. inv_pair. left. split; reflexivity.
Qed.

(** X22: At the end of the trials the best inlier count is the number of true
    entries of the best mask. *)
Theorem best_inlier_num_counts_best_inliers (a : args) (w : wld) s w1 :
  ransac_trials a w = (Returns s, w1) ->
  best_inlier_num s = count_nonzero (best_inliers s).
Proof.
  assert (Hstep : forall N t (u : wld) t' brk u',
             (num_trials t < max_trials t)%Z ->
             best_inlier_num t = count_nonzero (best_inliers t) ->
             trial a N t u = (Returns (t', brk), u') ->
             best_inlier_num t' = count_nonzero (best_inliers t')).
  { intros N t u t' brk u' _ HP Ht.
    apply trial_inv in Ht as [_ [Hsame | Hnew]].
    - destruct Hsame as (-> & _ & -> & _). exact HP.
    - destruct Hnew as (? & ? & ? & _ & _ & _ & _ & -> & -> & _). reflexivity. }
  unfold ransac_trials, ransac_sampling, bind, get_data, lift, ret, raise.
  destruct (w_data w) as [|d0 rest]; [discriminate|].
  destruct (validate a (length d0)); [|discriminate].
  destruct (initial_inliers a) as [m|].
  - intros H.
    eapply (while_loop_inv a (length d0)
              (fun t _ => best_inlier_num t = count_nonzero (best_inliers t))
              (Hstep (length d0))) in H; [exact H | reflexivity].
  - unfold choice.
    destruct (rng_choice a (w_rng w) (length d0) (Z.to_nat (min_samples a))) as [i g].
    intros H.
    eapply (while_loop_inv a (length d0)
              (fun t _ => best_inlier_num t = count_nonzero (best_inliers t))
              (Hstep (length d0))) in H; [exact H | reflexivity].
Qed.

(** X23: A pass of the loop body that raises the best inlier count to the
    number of samples leaves [max_trials] at one or less, so the loop ends
    there: no further pass is made, whatever [max_trials] was. *)
Theorem all_inliers_end_the_loop (a : args) N s (w : wld) s' brk w' :
  trial a N s w = (Returns (s', brk), w') ->
  (0 < N)%nat ->
  (0 <= num_trials s)%Z ->
  (best_inlier_num s < N)%nat ->
  best_inlier_num s' = N ->
  (max_trials s' <= 1)%Z /\
  forall fuel, while_loop a N fuel s' w' = (Returns s', w').
Proof.
  intros Ht HN Hnum Hlt Hall.
  apply trial_inv in Ht as [Hn [Hsame | Hnew]].
  - destruct Hsame as (Hb & _). lia.
  - destruct Hnew as (sel & m & bound & _ & _ & _ & Hb & _ & Hc & _ & Hm & _).
    rewrite <- Hc, Hall in Hb.
    assert (Hbound : exists t, bound = Fin t /\ (t <= 1)%Z).
    { destruct (Req_dec_T (stop_probability a) 0) as [Hp|Hp].
      - rewrite Hp, dynamic_max_trials_zero_probability in Hb.
        injection Hb as <-. exists 0%Z. split; [reflexivity | lia].
      - rewrite dynamic_max_trials_general in Hb by assumption.
        rewrite unit_ratio, unit_ratio_quotient in Hb by assumption.
        injection Hb as <-. exists 1%Z. split; [reflexivity | lia]. }
    destruct Hbound as (t & -> & Ht).
    assert (Hmax : (max_trials s' <= 1)%Z).
    { rewrite Hm. unfold py_min. destruct (Z.ltb_spec t (max_trials s)); lia. }
    split; [exact Hmax|].
    intros fuel.
    assert (Hend : (num_trials s' <? max_trials s')%Z = false)
      by (apply Z.ltb_ge; lia).
    destruct fuel; simpl; rewrite Hend; reflexivity.
Qed.

End RansacFurther.

Lemma ransac_trial_count_witness :
  (0 <= num_trials spread_s2 <= max_trials_arg spread_args)%Z /\
  exists new,
    w_log spread_w2 = w_log spread_world ++ new /\
    Z.of_nat (count_events is_choice new)
      = (num_trials spread_s2
         + match initial_inliers spread_args with Some _ => 0 | None => 1 end)%Z /\
    (Z.of_nat (count_events is_from_estimate new) <= num_trials spread_s2)%Z /\
    (count_events is_residuals new <= count_events is_from_estimate new)%nat.
Proof.
  exact (ransac_trial_count spread_args spread_world spread_s2 spread_w2 spread_run).
Defined.

(** ** More runs of the engine on concrete data *)

Lemma picky_run :
  ransac picky_args spread_world = (Returns (RNone, None), picky_final).
Proof.
  unfold picky_args, spread_world, picky_final.
  run_engine. R_decide. simpl. reflexivity.
Qed.

Lemma ransac_rejected_samples_never_fit_witness :
  (exists new, w_log picky_final = w_log spread_world ++ new /\
               count_events is_from_estimate new = 0%nat) /\
  (forall r, Returns (RNone, None) = Returns r ->
             r = (@RNone R string unit, @None (list bool))).
Proof.
  apply (ransac_rejected_samples_never_fit picky_args (fun xs => (false, xs))
           spread_world (Returns (RNone, None)) picky_final).
  - reflexivity.
  - reflexivity.
  - exact picky_run.
Defined.

Lemma failing_run :
  ransac failing_args spread_world = (Returns (RNone, None), failing_final).
Proof.
  unfold failing_args, spread_world, failing_final.
  run_engine. R_decide. simpl. reflexivity.
Qed.

Lemma ransac_failed_fits_never_scored_witness :
  (exists new, w_log failing_final = w_log spread_world ++ new /\
               count_events is_residuals new = 0%nat) /\
  (forall r, Returns (RNone, None) = Returns r ->
             r = (@RNone R string unit, @None (list bool))).
Proof.
  apply (ransac_failed_fits_never_scored failing_args
           spread_world (Returns (RNone, None)) failing_final).
  - intros xs. eexists. reflexivity.
  - exact failing_run.
Defined.

Lemma idle_args_valid : validate idle_args 4 = Ok tt.
Proof. unfold validate, idle_args. simpl. R_decide. reflexivity. Qed.

Lemma ransac_without_trials_witness :
  exists g,
    ransac idle_args spread_world
    = (Returns (RNone, None),
       {| w_data := w_data spread_world;
          w_rng := g;
          w_log := w_log spread_world
                   ++ match initial_inliers idle_args with
                      | Some _ => []
                      | None => [EvChoice]
                      end
                   ++ [EvWarn "No inliers found. Model not fitted"] |}).
Proof.
  apply (ransac_without_trials idle_args spread_world [0; 6; 12; 13] []).
  - reflexivity.
  - exact idle_args_valid.
  - reflexivity.
Defined.

Lemma ransac_mask_none_or_has_inlier_witness :
  (Some [true; true; false] = None /\
   REstimation (Estimated (mean [0; 19])) = @RNone R string unit) \/
  (exists m, Some [true; true; false] = Some m /\ (0 < count_nonzero m)%nat).
Proof.
  exact (ransac_mask_none_or_has_inlier drift_args drift_world _ _ _ drift_run).
Defined.

Lemma best_inlier_num_counts_best_inliers_witness :
  best_inlier_num single_s1 = count_nonzero (best_inliers single_s1).
Proof.
  exact (best_inlier_num_counts_best_inliers single_args single_world
           single_s1 single_w1 single_run).
Defined.

Lemma close_first_pass :
  trial close_args 2 close_s0 close_entry = (Returns (close_s1, false), close_w1).
Proof.
  unfold close_args, close_s0, close_entry, close_s1, close_w1.
  run_engine. R_decide. simpl.
  rewrite dynamic_max_trials_general by (lia || lra).
  rewrite unit_ratio, unit_ratio_quotient by lia. simpl.
  R_decide. simpl. unfold py_min. simpl.
  repeat f_equal. R_arith.
Qed.

Lemma max_trials_only_tightens_witness :
  trial close_args 2 close_s0 close_entry = (Returns (close_s1, false), close_w1) /\
  max_trials close_s0 = 5%Z /\ max_trials close_s1 = 1%Z /\
  (max_trials close_s1 <= max_trials close_s0)%Z /\
  ((best_inlier_num close_s1 = best_inlier_num close_s0 /\
    best_inlier_residuals_sum close_s1 = best_inlier_residuals_sum close_s0 /\
    best_inliers close_s1 = best_inliers close_s0 /\
    max_trials close_s1 = max_trials close_s0)
   \/
   (exists residuals_sum bound,
      best_inlier_residuals_sum close_s1 = Fin residuals_sum /\
      improves (best_inlier_num close_s1) residuals_sum close_s0 = true /\
      (best_inlier_num close_s1, best_inlier_residuals_sum close_s1)
        <> (best_inlier_num close_s0, best_inlier_residuals_sum close_s0) /\
      _dynamic_max_trials (best_inlier_num close_s1) 2
        (Z.to_nat (min_samples close_args)) (stop_probability close_args) = Ok bound /\
      max_trials close_s1 = match bound with
                            | Inf => max_trials close_s0
                            | Fin t => Z.min (max_trials close_s0) t
                            end)).
Proof.
  split; [exact close_first_pass|].
  split; [reflexivity|]. split; [reflexivity|].
  exact (max_trials_only_tightens close_args 2 close_s0 close_entry
           close_s1 false close_w1 close_first_pass).
Defined.

Lemma close_first_trial :
  exists s' w',
    trial close_args 2 close_s0 close_entry = (Returns (s', false), w') /\
    best_inlier_num s' = 2%nat.
Proof.
  unfold close_args, close_s0, close_entry.
  run_engine. R_decide. simpl.
  rewrite dynamic_max_trials_general by (lia || lra).
  rewrite unit_ratio, unit_ratio_quotient by lia. simpl.
  R_decide. simpl.
  eexists _, _. split; reflexivity.
Qed.

Lemma all_inliers_end_the_loop_witness :
  exists s' w',
    trial close_args 2 close_s0 close_entry = (Returns (s', false), w') /\
    (max_trials s' <= 1)%Z /\
    forall fuel, while_loop close_args 2 fuel s' w' = (Returns s', w').
Proof.
  destruct close_first_trial as (s' & w' & Ht & Hall).
  exists s', w'. split; [exact Ht|].
  apply (all_inliers_end_the_loop close_args 2 close_s0 close_entry s' false w' Ht);
    simpl; lia.
Defined.

(** ** Wrapping a class of the old interface *)

(** X25: The class [add_from_estimate] returns has a [from_estimate] class
    method, and handing it to [add_from_estimate] again returns it as it
    is, without a second deprecation warning. *)
Theorem add_from_estimate_idempotent {Inst Data : Type}
    (cls c : py_class Inst Data) (warnings : list string) :
  add_from_estimate cls = (ReturnsClass c, warnings) ->
  (exists f, cls_from_estimate c = Some (ClassMethod f)) /\
  add_from_estimate c = (ReturnsClass c, []).
Proof.
  unfold add_from_estimate at 1.
  destruct (cls_from_estimate cls) as [[f|]|] eqn:Hfe.
  - intros H. injection H as <- _.
    split; [eauto|]. unfold add_from_estimate. now rewrite Hfe.
  - discriminate.
  - destruct (cls_estimate cls) as [estimate|]; [|discriminate].
    intros H. injection H as <- _.
    split; [simpl; eauto | reflexivity].
Qed.

Lemma add_from_estimate_idempotent_witness :
  exists c,
    add_from_estimate LegacyLocation = (ReturnsClass c, [from_estimate_deprecation]) /\
    (exists f, cls_from_estimate c = Some (ClassMethod f)) /\
    add_from_estimate c = (ReturnsClass c, []).
Proof.
  eexists. split; [reflexivity|].
  apply (add_from_estimate_idempotent LegacyLocation _ [from_estimate_deprecation]).
  reflexivity.
Defined.
